(** * Credential store of [carpeta_item_3/aplicacion_item3.py]

    A shallow embedding of the Flask + SQLite application: the SQLite
    table [users], the store functions [init_db], [get_password_hash],
    [add_user] and [validate_user], the two web views [register] and
    [login], and the command-line entry point.

    The interactive loop of [script_graphhoper.py] and its [ms_to_hms]
    are embedded as well, with the HTTP exchange of a round as one opaque
    event.

    A Python [str] is represented by the bytes of its UTF-8 encoding
    (with the [surrogateescape] handler, the one behind [sys.argv], when
    it is not text).  [strip] removes every character that [str.isspace]
    accepts, in whatever number of bytes it is encoded; [lower] acts on
    the ASCII letters, which is enough wherever the program compares the
    result with one of its own ASCII words.  What SQLite or a codec
    refuses for lack of room or for bytes that are not text (a row id at
    2^63 - 1, a word that is not UTF-8) is not part of the embedding:
    where a property depends on it, it says so in a hypothesis.
    Exceptions are results [Raise e]; the SQLite file, the entropy
    source behind the salt and an observable log (standard output and the
    calls the properties talk about) form the state that is threaded
    through every function. *)

From Stdlib Require Import String Ascii List ZArith Lia Bool Arith Sorted.
Import ListNotations.
Open Scope string_scope.

(** ** Python strings *)

Module Py.

(** [str.isspace] on ASCII: TAB, LF, VT, FF, CR, FS, GS, RS, US, SPACE. *)
Definition isspace (c : ascii) : bool :=
  let n := nat_of_ascii c in
  ((9 <=? n) && (n <=? 13) || (28 <=? n) && (n <=? 32))%nat.

(** The two-byte white space: U+0085 and U+00A0. *)
Definition isspace2 (c d : ascii) : bool :=
  let c := nat_of_ascii c in
  let d := nat_of_ascii d in
  ((c =? 194) && ((d =? 133) || (d =? 160)))%nat.

(** The three-byte white space: U+1680, U+2000 to U+200A, U+2028, U+2029,
    U+202F, U+205F and U+3000. *)
Definition isspace3 (c d e : ascii) : bool :=
  let c := nat_of_ascii c in
  let d := nat_of_ascii d in
  let e := nat_of_ascii e in
  ((c =? 225) && (d =? 154) && (e =? 128)
   || (c =? 226) && (d =? 128)
      && ((128 <=? e) && (e <=? 138) || (e =? 168) || (e =? 169) || (e =? 175))
   || (c =? 226) && (d =? 129) && (e =? 159)
   || (c =? 227) && (d =? 128) && (e =? 128))%nat.

(** [s.lstrip()] *)
Fixpoint lstrip (s : string) : string :=
  match s with
  | EmptyString => EmptyString
  | String c s1 =>
      if isspace c then lstrip s1
      else
        match s1 with
        | String d s2 =>
            if isspace2 c d then lstrip s2
            else
              match s2 with
              | String e s3 => if isspace3 c d e then lstrip s3 else s
              | EmptyString => s
              end
        | EmptyString => s
        end
  end.

(** [s.rstrip()]: nothing is left of a text that is white space
    throughout; otherwise the first byte stays. *)
Fixpoint rstrip (s : string) : string :=
  match s with
  | EmptyString => EmptyString
  | String c s' =>
      match lstrip s with
      | EmptyString => EmptyString
      | _ => String c (rstrip s')
      end
  end.

Definition strip (s : string) : string := rstrip (lstrip s).

Definition lower_char (c : ascii) : ascii :=
  let n := nat_of_ascii c in
  if ((65 <=? n) && (n <=? 90))%nat then ascii_of_nat (n + 32) else c.

(** [s.lower()] *)
Fixpoint lower (s : string) : string :=
  match s with
  | EmptyString => EmptyString
  | String c s' => String (lower_char c) (lower s')
  end.

Definition continuation (b : nat) : bool := ((128 <=? b) && (b <=? 191))%nat.

Definition lead2 (b0 : nat) : bool := ((194 <=? b0) && (b0 <=? 223))%nat.

Definition lead3 (b0 b1 : nat) : bool :=
  ((b0 =? 224) && (160 <=? b1) && (b1 <=? 191)
   || (225 <=? b0) && (b0 <=? 236) && continuation b1
   || (b0 =? 237) && (128 <=? b1) && (b1 <=? 159)
   || (238 <=? b0) && (b0 <=? 239) && continuation b1)%nat.

Definition lead4 (b0 b1 : nat) : bool :=
  ((b0 =? 240) && (144 <=? b1) && (b1 <=? 191)
   || (241 <=? b0) && (b0 <=? 243) && continuation b1
   || (b0 =? 244) && (128 <=? b1) && (b1 <=? 143))%nat.

(** The bytes are the UTF-8 encoding of a text: [s.encode()] succeeds. *)
Fixpoint is_text (s : string) : bool :=
  match s with
  | EmptyString => true
  | String c s1 =>
      let b0 := nat_of_ascii c in
      if (b0 <? 128)%nat then is_text s1
      else
        match s1 with
        | String d s2 =>
            let b1 := nat_of_ascii d in
            if lead2 b0 && continuation b1 then is_text s2
            else
              match s2 with
              | String e s3 =>
                  let b2 := nat_of_ascii e in
                  if lead3 b0 b1 && continuation b2 then is_text s3
                  else
                    match s3 with
                    | String f s4 =>
                        let b3 := nat_of_ascii f in
                        if lead4 b0 b1 && continuation b2 && continuation b3
                        then is_text s4
                        else false
                    | EmptyString => false
                    end
              | EmptyString => false
              end
        | EmptyString => false
        end
  end.

(** Truth value of a string: [not s] holds exactly for the empty one. *)
Definition truthy (s : string) : bool := negb (s =? "").

End Py.

(** One white-space character in front of [s], and what follows it. *)
Definition space_prefix (s : string) : option string :=
  match s with
  | EmptyString => None
  | String c s1 =>
      if Py.isspace c then Some s1
      else
        match s1 with
        | String d s2 =>
            if Py.isspace2 c d then Some s2
            else
              match s2 with
              | String e s3 => if Py.isspace3 c d e then Some s3 else None
              | EmptyString => None
              end
        | EmptyString => None
        end
  end.

(** ** Exceptions and results *)

Inductive exn : Type :=
| OperationalError      (* sqlite3.OperationalError: no such table: users *)
| IntegrityError        (* sqlite3.IntegrityError: UNIQUE constraint failed *)
| IndexError            (* list index out of range *)
| SystemExit (code : Z).

Inductive res (A : Type) : Type :=
| Ok (a : A)
| Raise (e : exn).
Arguments Ok {A} a.
Arguments Raise {A} e.

(** ** The SQLite file *)

Module Sqlite.

Record row : Type := mkRow {
  id : Z;
  username : string;
  password_hash : string
}.

(** The table [users] with the counter that [AUTOINCREMENT] keeps in
    [sqlite_sequence]. *)
Record table : Type := mkTable {
  rows : list row;
  seq : Z
}.

(** The file either has no table [users] yet or has one. *)
Definition database : Type := option table.

(** A connection: what is committed to the file and the view of the
    open transaction. *)
Record conn : Type := mkConn {
  committed : database;
  working : database
}.

Definition connect (d : database) : conn := mkConn d d.

Definition C (A : Type) : Type := conn -> res A * conn.

Definition cret {A} (a : A) : C A := fun c => (Ok a, c).

Definition cbind {A B} (m : C A) (k : A -> C B) : C B :=
  fun c =>
    match m c with
    | (Ok a, c') => k a c'
    | (Raise e, c') => (Raise e, c')
    end.

(** [WHERE username = ?] under the default BINARY collation. *)
Definition matches (u : string) (r : row) : bool := username r =? u.

Definition max_rowid (rs : list row) : Z :=
  fold_right (fun r m => Z.max (id r) m) 0%Z rs.

(** The row id that [AUTOINCREMENT] hands out: one more than the largest
    ever used.  Ids are unbounded here; SQLite gives up at [2^63 - 1]. *)
Definition next_rowid (t : table) : Z :=
  (Z.max (seq t) (max_rowid (rows t)) + 1)%Z.

(** [CREATE TABLE IF NOT EXISTS users (...)] *)
Definition execute_create_users : C unit :=
  fun c =>
    match working c with
    | Some _ => (Ok tt, c)
    | None => (Ok tt, mkConn (committed c) (Some (mkTable [] 0%Z)))
    end.

(** [SELECT password_hash FROM users WHERE username = ?] followed by
    [fetchone()] and [row[0] if row else None]. *)
Definition execute_select_password_hash (u : string) : C (option string) :=
  fun c =>
    match working c with
    | None => (Raise OperationalError, c)
    | Some t =>
        match find (matches u) (rows t) with
        | Some r => (Ok (Some (password_hash r)), c)
        | None => (Ok None, c)
        end
    end.

(** [INSERT INTO users(username, password_hash) VALUES(?, ?)]: the
    [UNIQUE] constraint aborts the statement without any change. *)
Definition execute_insert_user (u h : string) : C unit :=
  fun c =>
    match working c with
    | None => (Raise OperationalError, c)
    | Some t =>
        if existsb (matches u) (rows t)
        then (Raise IntegrityError, c)
        else
          let i := next_rowid t in
          (Ok tt,
           mkConn (committed c) (Some (mkTable (rows t ++ [mkRow i u h]) i)))
    end.

(** [conn.commit()] *)
Definition commit : C unit :=
  fun c => (Ok tt, mkConn (working c) (working c)).

(** [conn.rollback()] *)
Definition rollback (c : conn) : conn := mkConn (committed c) (committed c).

(** What leaving [with get_conn() as conn:] does to the file: commit when
    the body returned, roll back when it raised. *)
Definition with_connection {A} (body : C A) (d : database)
  : res A * database :=
  match body (connect d) with
  | (Ok a, c) => (Ok a, working c)
  | (Raise e, c) => (Raise e, committed (rollback c))
  end.

Definition usernames (d : database) : list string :=
  match d with
  | Some t => map username (rows t)
  | None => []
  end.

(** Rows of the table that carry the user name [u]. *)
Definition rows_named (u : string) (d : database) : list row :=
  match d with
  | Some t => filter (matches u) (rows t)
  | None => []
  end.

Definition has_table (d : database) : bool :=
  match d with Some _ => true | None => false end.

(** The [UNIQUE] constraint on [username]. *)
Definition unique_usernames (d : database) : Prop := NoDup (usernames d).

End Sqlite.
Import Sqlite.

(** ** werkzeug.security *)

(** The two functions the program imports.  [generate_password_hash] draws
    a random salt; the draw is the [nat] argument.  The two laws are the
    library's contract: a generated hash is the non-empty text
    [method$salt$digest], and it verifies the password it was made from.
    Against a stored text that names no method the library knows, its
    verification raises instead of answering; no generated hash is such a
    text, and the properties that depend on the answer for a stored hash
    are stated for generated ones. *)
Class PasswordHasher : Type := {
  generate_password_hash : nat -> string -> string;
  check_password_hash : string -> string -> bool;
  generate_nonempty :
    forall r p, generate_password_hash r p <> "";
  check_generate :
    forall r p, check_password_hash (generate_password_hash r p) p = true
}.


(** U+00A0, the no-break space, as text. *)
Definition nbsp : string :=
  String (ascii_of_nat 194) (String (ascii_of_nat 160) EmptyString).



(** A transparent instance (one salt letter, a dollar sign, the password),
    used to run the program on concrete inputs.  Like the HMAC of the
    library it does not see NUL bytes at the end of a password. *)
Module PlainHasher.

Definition salt (r : nat) : ascii := ascii_of_nat (97 + Nat.modulo r 26).

Fixpoint drop_nuls (s : string) : string :=
  match s with
  | EmptyString => EmptyString
  | String c s' =>
      match drop_nuls s' with
      | EmptyString =>
          if (nat_of_ascii c =? 0)%nat then EmptyString
          else String c EmptyString
      | r => String c r
      end
  end.

Definition generate (r : nat) (p : string) : string :=
  String (salt r) (String "$" p).

Definition check (h p : string) : bool :=
  match h with
  | String _ (String "$" d) => drop_nuls d =? drop_nuls p
  | _ => false
  end.

End PlainHasher.

#[export] Instance plain_hasher : PasswordHasher := {|
  generate_password_hash := PlainHasher.generate;
  check_password_hash := PlainHasher.check;
  generate_nonempty := fun r p => ltac:(discriminate);
  check_generate := fun r p => String.eqb_refl (PlainHasher.drop_nuls p)
|}.

(** ** The state of a run and the monad of the program *)

(** What a run leaves behind besides the file: lines on standard output
    and the calls that the properties below talk about. *)
Inductive event : Type :=
| Called_init_db
| Generated (password : string)
| Verified (pwhash password : string)
| Printed (line : string)
| Served (host : string) (port : Z).

Record world : Type := mkWorld {
  disk : database;
  entropy : nat;
  log : list event
}.

Definition M (A : Type) : Type := world -> res A * world.

Definition ret {A} (a : A) : M A := fun w => (Ok a, w).

Definition bind {A B} (m : M A) (k : A -> M B) : M B :=
  fun w =>
    match m w with
    | (Ok a, w') => k a w'
    | (Raise e, w') => (Raise e, w')
    end.

Definition raise {A} (e : exn) : M A := fun w => (Raise e, w).

Declare Scope prog_scope.
Delimit Scope prog_scope with prog.
Notation "x <- m ;; k" := (bind m (fun x => k))
  (at level 61, m at next level, right associativity) : prog_scope.
Notation "m ;; k" := (bind m (fun _ => k))
  (at level 61, right associativity) : prog_scope.
Notation "m ;;; k" := (cbind m (fun _ => k))
  (at level 61, right associativity) : prog_scope.
Open Scope prog_scope.

Definition emit (e : event) : M unit :=
  fun w => (Ok tt, mkWorld (disk w) (entropy w) (log w ++ [e])).

(** [print(line)] *)
Definition print (line : string) : M unit := emit (Printed line).

(** [with get_conn() as conn:] around a body of statements. *)
Definition with_conn {A} (body : C A) : M A :=
  fun w =>
    let (r, d) := with_connection body (disk w) in
    (r, mkWorld d (entropy w) (log w)).

(** [xs[i]] *)
Definition index {A} (xs : list A) (i : nat) : M A :=
  match nth_error xs i with
  | Some x => ret x
  | None => raise IndexError
  end.

Definition is_verification (e : event) : bool :=
  match e with Verified _ _ => true | _ => false end.

Definition is_initialisation (e : event) : bool :=
  match e with Called_init_db => true | _ => false end.

(** Number of [check_password_hash] calls in a log. *)
Definition verifications (l : list event) : nat :=
  length (filter is_verification l).

(** Number of [init_db] calls in a log. *)
Definition initialisations (l : list event) : nat :=
  length (filter is_initialisation l).

(** ** The application *)

Section App.

Context {hasher : PasswordHasher}.

(** [generate_password_hash(password)]: draws the salt. *)
Definition generate (password : string) : M string :=
  fun w =>
    (Ok (generate_password_hash (entropy w) password),
     mkWorld (disk w) (S (entropy w)) (log w ++ [Generated password])).

(** [check_password_hash(pw_hash, password)] *)
Definition check (pw_hash password : string) : M bool :=
  emit (Verified pw_hash password) ;;
  ret (check_password_hash pw_hash password).

(** The first step only records the call in the log. *)
Definition init_db : M unit :=
  emit Called_init_db ;;
  with_conn (execute_create_users ;;; commit).

Definition get_password_hash (username : string) : M (option string) :=
  with_conn (execute_select_password_hash username).

Definition add_user (username password : string) : M unit :=
  pw_hash <- generate password ;;
  with_conn (execute_insert_user username pw_hash ;;; commit).

Definition validate_user (username password : string) : M bool :=
  pw_hash <- get_password_hash username ;;
  match pw_hash with
  | None => ret false
  | Some h => if Py.truthy h then check h password else ret false
  end.

(** *** Web views *)

Inductive http_method : Type := GET | POST.

Record request : Type := mkRequest {
  method : http_method;
  form : list (string * string)
}.

(** [request.form.get(key, default)] *)
Fixpoint form_get (f : list (string * string)) (key default : string)
  : string :=
  match f with
  | [] => default
  | (k, v) :: f' => if k =? key then v else form_get f' key default
  end.

Inductive template : Type := HOME_HTML | REGISTER_HTML | LOGIN_HTML | OK_HTML.

Inductive response : Type :=
| Redirect (endpoint : string)
| Rendered (t : template) (context : list (string * string)).

Definition home : M response := ret (Rendered HOME_HTML []).

(** [try: add_user(u, p); return redirect(...) except IntegrityError: ...] *)
Definition try_add_user (u p : string) : M (option response) :=
  fun w =>
    match add_user u p w with
    | (Ok _, w') => (Ok (Some (Redirect "home")), w')
    | (Raise IntegrityError, w') => (Ok None, w')
    | (Raise e, w') => (Raise e, w')
    end.

Definition register (req : request) : M response :=
  match method req with
  | POST =>
      let u := Py.strip (form_get (form req) "username" "") in
      let p := Py.strip (form_get (form req) "password" "") in
      if negb (Py.truthy u) || negb (Py.truthy p)
      then ret (Rendered REGISTER_HTML [("msg", "Datos inválidos.")])
      else
        r <- try_add_user u p ;;
        match r with
        | Some resp => ret resp
        | None =>
            ret (Rendered REGISTER_HTML [("msg", "El usuario ya existe.")])
        end
  | GET => ret (Rendered REGISTER_HTML [("msg", "")])
  end.

Definition login (req : request) : M response :=
  match method req with
  | POST =>
      let u := Py.strip (form_get (form req) "username" "") in
      let p := Py.strip (form_get (form req) "password" "") in
      ok <- validate_user u p ;;
      if ok then ret (Rendered OK_HTML [("user", u)])
      else
        ret (Rendered LOGIN_HTML [("msg", "Usuario o contraseña incorrectos.")])
  | GET => ret (Rendered LOGIN_HTML [("msg", "")])
  end.

(** *** Command line *)

Definition usage : M unit :=
  print "Uso del programa:" ;;
  print "  python3 aplicacion_item_3.py init-db" ;;
  print "  python3 aplicacion_item_3.py add-user Gabriel_Badilla Clave123" ;;
  print "  python3 aplicacion_item_3.py validate Gabriel_Badilla Clave123" ;;
  print "  python3 aplicacion_item_3.py run".

(** [app.run(host="0.0.0.0", port=5800, debug=False)]: the requests served
    while it blocks are not part of the model. *)
Definition app_run : M unit := emit (Served "0.0.0.0" 5800%Z).

(** The body under [if __name__ == "__main__":], on [os.sys.argv]. *)
Definition main (argv : list string) : M unit :=
  init_db ;;
  if (length argv <? 2)%nat then
    usage ;;
    raise (SystemExit 0%Z)
  else
    a1 <- index argv 1 ;;
    let cmd := Py.lower a1 in
    if cmd =? "init-db" then
      init_db ;;
      print "Base de datos inicializada correctamente."
    else if cmd =? "add-user" then
      user <- index argv 2 ;;
      pw <- index argv 3 ;;
      add_user user pw ;;
      print ("Usuario creado: " ++ user)
    else if cmd =? "validate" then
      user <- index argv 2 ;;
      pw <- index argv 3 ;;
      ok <- validate_user user pw ;;
      print (if ok then "Credenciales válidas" else "Credenciales inválidas")
    else if cmd =? "run" then
      print "Servidor ejecutándose en http://localhost:5800" ;;
      app_run
    else ret tt.

(** Exit status of the interpreter: 0 when the script ends, the code of
    [sys.exit], 1 after an uncaught exception. *)
Definition exit_status (r : res unit) : Z :=
  match r with
  | Ok _ => 0%Z
  | Raise (SystemExit code) => code
  | Raise _ => 1%Z
  end.

Definition run_script (argv : list string) (w : world) : Z * world :=
  let (r, w') := main argv w in (exit_status r, w').

End App.

(** A file in which nothing was created yet, and one right after
    [init_db]. *)
Definition no_file : world := mkWorld None 0 [].
Definition fresh : world := mkWorld (Some (mkTable [] 0%Z)) 0 [].

(** The state that registering ["ana"] with ["Clave123"] on [fresh]
    produces under the transparent hasher. *)
Definition ana_registered : world :=
  mkWorld (Some (mkTable [mkRow 1 "ana" "a$Clave123"] 1%Z)) 1
          [Generated "Clave123"].

(** A table written by other means, with a row whose hash is empty. *)
Definition empty_hash_row : world :=
  mkWorld (Some (mkTable [mkRow 1 "ana" ""] 1%Z)) 0 [].

(** A POST request carrying the two form fields. *)
Definition post (u p : string) : request :=
  mkRequest POST [("username", u); ("password", p)].

(** The user name is in the table with a hash generated from [p]. *)
Definition registered_with {hasher : PasswordHasher}
  (u p : string) (d : database) : Prop :=
  exists t r s,
    d = Some t /\ find (matches u) (rows t) = Some r /\
    password_hash r = generate_password_hash s p.

(** [check_password_hash] calls made by running [m] from [w]. *)
Definition verifications_by {A} (m : M A) (w : world) : nat :=
  verifications (log (snd (m w))) - verifications (log w).

(** [init_db] calls made by running [m] from [w]. *)
Definition initialisations_by {A} (m : M A) (w : world) : nat :=
  initialisations (log (snd (m w))) - initialisations (log w).

(** Required arguments of [add-user] and [validate] are missing. *)
Definition missing_arguments (argv : list string) : bool :=
  match argv with
  | _ :: a1 :: rest =>
      ((Py.lower a1 =? "add-user") || (Py.lower a1 =? "validate"))
      && (length rest <? 2)%nat
  | _ => false
  end.

(** The second word of the command line selects one of the four
    subcommands. *)
Definition known_command (argv : list string) : bool :=
  match argv with
  | _ :: a1 :: _ =>
      let cmd := Py.lower a1 in
      (cmd =? "init-db") || (cmd =? "add-user") || (cmd =? "validate")
      || (cmd =? "run")
  | _ => false
  end.

(** ** Sequences of operations and what every file keeps *)

Definition rows_of (d : database) : list row :=
  match d with
  | Some t => rows t
  | None => []
  end.

(** What the schema and the program together promise of a file: user names
    are unique, row ids are positive, grow in insertion order and stay
    below the sequence counter, and no stored hash is empty. *)
Definition store_ok (d : database) : Prop :=
  match d with
  | None => True
  | Some t =>
      NoDup (map username (rows t)) /\
      StronglySorted Z.lt (map id (rows t)) /\
      Forall (fun r => (0 < id r <= seq t)%Z) (rows t) /\
      Forall (fun r => password_hash r <> "") (rows t)
  end.

(** Every stored hash came out of [generate_password_hash], as in a file
    that only this program has written. *)
Definition hashes_generated {hasher : PasswordHasher} (d : database)
  : Prop :=
  Forall (fun r => exists s p, password_hash r = generate_password_hash s p)
         (rows_of d).

(** The row ids have not reached the largest one that SQLite hands
    out. *)
Definition has_room (d : database) : Prop :=
  match d with
  | None => True
  | Some t => (Z.max (seq t) (max_rowid (rows t)) < 9223372036854775807)%Z
  end.

(** Every entry point of the program, as one step on the state. *)
Inductive operation : Type :=
| Op_init_db
| Op_add_user (u p : string)
| Op_validate_user (u p : string)
| Op_register (req : request)
| Op_login (req : request)
| Op_main (argv : list string).

Definition perform {hasher : PasswordHasher} (o : operation) (w : world)
  : world :=
  match o with
  | Op_init_db => snd (init_db w)
  | Op_add_user u p => snd (add_user u p w)
  | Op_validate_user u p => snd (validate_user u p w)
  | Op_register req => snd (register req w)
  | Op_login req => snd (login req w)
  | Op_main argv => snd (main argv w)
  end.

Definition perform_all {hasher : PasswordHasher} (ops : list operation)
  (w : world) : world :=
  fold_left (fun w o => perform o w) ops w.

(** The file [d'] keeps everything of [d]: the invariant, the table, and
    the rows in their order. *)
Definition extends (d d' : database) : Prop :=
  (store_ok d -> store_ok d') /\
  (has_table d = true -> has_table d' = true) /\
  exists extra, rows_of d' = (rows_of d ++ extra)%list.

Definition preserving {A} (m : M A) : Prop :=
  forall w, extends (disk w) (disk (snd (m w))).

(** ** [script_graphhoper.py] *)

Module Graphhopper.

Section Hms.

(** The argument is a Python number.  [int(ms / 1000)], a floating-point
    division followed by truncation, is taken as given; it has no value
    when [int] raises (on NaN or an infinity). *)
Variable number : Type.
Variable int_of_thousandth : number -> option Z.

Definition ms_to_hms (ms : number) : option (Z * Z * Z) :=
  match int_of_thousandth ms with
  | None => None
  | Some total_sec =>
      let h := (total_sec / 3600)%Z in
      let m := ((total_sec mod 3600) / 60)%Z in
      let s := (total_sec mod 60)%Z in
      Some (h, m, s)
  end.

End Hms.

(** What the script does that can be seen from outside.  [Routed] stands
    for the whole [try] block of one round: the two [geocode] requests,
    the [route] request and everything printed from their answers or from
    the exception they raised; [except Exception] lets none of it end the
    loop. *)
Inductive event : Type :=
| Asked (prompt : string)
| Shown (line : string)
| Routed (origen destino vehicle : string).

Inductive ending : Type :=
| Finished
| Exited (code : Z)
| Uncaught_EOFError.

Definition exit_status (e : ending) : Z :=
  match e with
  | Finished => 0%Z
  | Exited code => code
  | Uncaught_EOFError => 1%Z
  end.

(** [vehiculos = {"1": "car", "2": "bike", "3": "foot"}] *)
Definition vehiculos (opcion : string) : option string :=
  if opcion =? "1" then Some "car"
  else if opcion =? "2" then Some "bike"
  else if opcion =? "3" then Some "foot"
  else None.

Definition LF : string := String (ascii_of_nat 10) EmptyString.
Definition quote : string := String (ascii_of_nat 34) EmptyString.

Definition ask_origen : event := Asked "Ciudad de Origen: ".
Definition ask_destino : event := Asked "Ciudad de Destino: ".
Definition ask_opcion : event :=
  Asked "Seleccione opción (1/2/3) o 'v' para salir: ".
Definition saliendo : event := Shown "Saliendo del programa...".
Definition menu : list event :=
  [Shown (LF ++ "Medio de transporte:"); Shown "1) Auto";
   Shown "2) Bicicleta"; Shown "3) A pie"].

(** The [while True:] loop on the lines that standard input still holds;
    [input] raises [EOFError] when there is none left. *)
Fixpoint loop (stdin : list string) : list event * ending :=
  match stdin with
  | [] => ([ask_origen], Uncaught_EOFError)
  | l1 :: rest1 =>
      let origen := Py.strip l1 in
      if Py.lower origen =? "v" then ([ask_origen; saliendo], Finished)
      else
        match rest1 with
        | [] => ([ask_origen; ask_destino], Uncaught_EOFError)
        | l2 :: rest2 =>
            let destino := Py.strip l2 in
            if Py.lower destino =? "v"
            then ([ask_origen; ask_destino; saliendo], Finished)
            else
              match rest2 with
              | [] =>
                  (ask_origen :: ask_destino :: menu ++ [ask_opcion],
                   Uncaught_EOFError)
              | l3 :: rest3 =>
                  let opcion := Py.lower (Py.strip l3) in
                  if opcion =? "v"
                  then
                    (ask_origen :: ask_destino :: menu
                     ++ [ask_opcion; saliendo],
                     Finished)
                  else
                    let (out, e) := loop rest3 in
                    let round :=
                      match vehiculos opcion with
                      | None =>
                          Shown ("Opción inválida. Intente nuevamente." ++ LF)
                      | Some vehicle => Routed origen destino vehicle
                      end in
                    (ask_origen :: ask_destino :: menu
                     ++ [ask_opcion; round] ++ out,
                     e)
              end
        end
  end.

(** [main()], on the value of [GRAPHHOPER_IPLACEX_KEY] and the lines of
    standard input. *)
Definition main (api_key : option string) (stdin : list string)
  : list event * ending :=
  match api_key with
  | None | Some EmptyString =>
      ([Shown "ERROR: No se encontró la API Key en GRAPHHOPER_IPLACEX_KEY";
        Shown ("Ejemplo: export GRAPHHOPER_IPLACEX_KEY=" ++ quote
               ++ "TU_API_KEY" ++ quote)],
       Exited 1%Z)
  | Some _ =>
      let (out, e) := loop stdin in
      (Shown "=== GraphHopper: Distancia Chile ↔ Argentina ==="
       :: Shown ("Escriba 'v' para salir en cualquier paso." ++ LF)
       :: out,
       e)
  end.

(** A line that ends the program at whichever prompt it is read. *)
Definition quits (line : string) : bool := Py.lower (Py.strip line) =? "v".

(** What the output may contain: a round reaches the routing service only
    when there is a key, with one of the three vehicles and with two
    cities that are not the quit word. *)
Definition allowed (api_key : option string) (e : event) : Prop :=
  match e with
  | Routed origen destino vehicle =>
      (exists key, api_key = Some key /\ key <> "") /\
      In vehicle ["car"; "bike"; "foot"] /\
      Py.lower origen <> "v" /\ Py.lower destino <> "v"
  | _ => True
  end.

End Graphhopper.

(** * Properties *)

(** ** The transparent hasher *)



(** ** Rows and user names *)

Lemma existsb_matches u rs :
  existsb (matches u) rs = true <-> In u (map username rs).
Proof.
  induction rs as [|r rs IH]; simpl.
  - split; [discriminate | tauto].
  - unfold matches at 1. rewrite orb_true_iff, IH, String.eqb_eq. tauto.
Qed.

Lemma existsb_matches_false u rs :
  existsb (matches u) rs = false <-> ~ In u (map username rs).
Proof.
  rewrite <- existsb_matches. destruct (existsb (matches u) rs); split;
    congruence.
Qed.

Lemma find_matches_none u rs :
  find (matches u) rs = None <-> ~ In u (map username rs).
Proof.
  induction rs as [|r rs IH]; simpl.
  - tauto.
  - unfold matches at 1. destruct (String.eqb_spec (username r) u) as [E|E].
    + split; [discriminate | tauto].
    + rewrite IH. tauto.
Qed.

Lemma find_matches_some u rs :
  In u (map username rs) -> exists r, find (matches u) rs = Some r.
Proof.
  intros Hin. destruct (find (matches u) rs) as [r|] eqn:E; eauto.
  apply find_matches_none in E. contradiction.
Qed.

Lemma find_matches_app_new u rs r :
  find (matches u) rs = None -> username r = u ->
  find (matches u) (rs ++ [r]) = Some r.
Proof.
  intros Hnone Hu. induction rs as [|r0 rs IH]; simpl in *.
  - unfold matches. rewrite Hu, String.eqb_refl. reflexivity.
  - destruct (matches u r0); [discriminate | auto].
Qed.

Lemma find_matches_app_old u rs r r0 :
  find (matches u) rs = Some r0 -> find (matches u) (rs ++ [r]) = Some r0.
Proof.
  induction rs as [|r1 rs IH]; simpl; [discriminate|].
  destruct (matches u r1); auto.
Qed.


Lemma NoDup_snoc {A} (l : list A) (a : A) :
  NoDup l -> ~ In a l -> NoDup (l ++ [a]).
Proof.
  induction l as [|x l IH]; simpl; intros Hnd Hnotin.
  - constructor; [tauto | constructor].
  - inversion Hnd as [|y ys Hx Hl]; subst. constructor.
    + rewrite in_app_iff. simpl. intros [H|[H|[]]]; [tauto|].
      apply Hnotin. left. symmetry. exact H.
    + apply IH; tauto.
Qed.

Lemma filter_matches_unique u rs :
  NoDup (map username rs) -> In u (map username rs) ->
  length (filter (matches u) rs) = 1.
Proof.
  induction rs as [|r rs IH]; simpl; [tauto|].
  intros Hnd Hin. inversion Hnd as [|x xs Hnotin Hnd']; subst.
  unfold matches at 1. destruct (String.eqb_spec (username r) u) as [E|E].
  - subst u. simpl. f_equal.
    assert (Hf : forall l, ~ In (username r) (map username l) ->
                 filter (matches (username r)) l = []).
    { induction l as [|a l IHl]; simpl; [reflexivity|]. intros Hn.
      unfold matches at 1.
      destruct (String.eqb_spec (username a) (username r)) as [E'|E'].
      - exfalso. apply Hn. left. exact E'.
      - apply IHl. tauto. }
    rewrite Hf by assumption. reflexivity.
  - apply IH; [assumption|]. destruct Hin; [contradiction | assumption].
Qed.

(** ** What each store function computes *)

Section Store.

Context {hasher : PasswordHasher}.

Lemma world_eta w : mkWorld (disk w) (entropy w) (log w) = w.
Proof. destruct w; reflexivity. Qed.

Lemma init_db_eq w :
  init_db w =
  (Ok tt,
   mkWorld (match disk w with Some t => Some t | None => Some (mkTable [] 0%Z) end)
           (entropy w) (log w ++ [Called_init_db])).
Proof.
  unfold init_db, bind, emit, with_conn, with_connection, cbind,
    execute_create_users, commit, connect; simpl.
  destruct (disk w); reflexivity.
Qed.

Lemma get_password_hash_eq w t u :
  disk w = Some t ->
  get_password_hash u w =
  (Ok (option_map password_hash (find (matches u) (rows t))), w).
Proof.
  intros Hd.
  unfold get_password_hash, with_conn, with_connection,
    execute_select_password_hash, connect; simpl.
  rewrite Hd. destruct (find (matches u) (rows t)); simpl;
    rewrite <- Hd, world_eta; reflexivity.
Qed.

Lemma get_password_hash_no_table w u :
  disk w = None -> get_password_hash u w = (Raise OperationalError, w).
Proof.
  intros Hd.
  unfold get_password_hash, with_conn, with_connection,
    execute_select_password_hash, connect, rollback; simpl.
  rewrite Hd. simpl. rewrite <- Hd, world_eta. reflexivity.
Qed.

Lemma add_user_new w t u p :
  disk w = Some t -> existsb (matches u) (rows t) = false ->
  add_user u p w =
  (Ok tt,
   mkWorld
     (Some (mkTable
              (rows t ++ [mkRow (next_rowid t) u
                            (generate_password_hash (entropy w) p)])
              (next_rowid t)))
     (S (entropy w)) (log w ++ [Generated p])).
Proof.
  intros Hd Hex.
  unfold add_user, bind, generate, with_conn, with_connection, cbind,
    execute_insert_user, commit, connect; simpl.
  rewrite Hd, Hex. reflexivity.
Qed.

Lemma add_user_existing w t u p :
  disk w = Some t -> existsb (matches u) (rows t) = true ->
  add_user u p w =
  (Raise IntegrityError,
   mkWorld (disk w) (S (entropy w)) (log w ++ [Generated p])).
Proof.
  intros Hd Hex.
  unfold add_user, bind, generate, with_conn, with_connection, cbind,
    execute_insert_user, commit, connect, rollback; simpl.
  rewrite Hd, Hex. reflexivity.
Qed.

Lemma add_user_no_table w u p :
  disk w = None ->
  add_user u p w =
  (Raise OperationalError,
   mkWorld None (S (entropy w)) (log w ++ [Generated p])).
Proof.
  intros Hd.
  unfold add_user, bind, generate, with_conn, with_connection, cbind,
    execute_insert_user, commit, connect, rollback; simpl.
  rewrite Hd. reflexivity.
Qed.

Lemma validate_user_absent w t u p :
  disk w = Some t -> find (matches u) (rows t) = None ->
  validate_user u p w = (Ok false, w).
Proof.
  intros Hd Hf. unfold validate_user, bind.
  rewrite (get_password_hash_eq w t u Hd), Hf. reflexivity.
Qed.

Lemma validate_user_present w t u p r :
  disk w = Some t -> find (matches u) (rows t) = Some r ->
  password_hash r <> "" ->
  validate_user u p w =
  (Ok (check_password_hash (password_hash r) p),
   mkWorld (disk w) (entropy w) (log w ++ [Verified (password_hash r) p])).
Proof.
  intros Hd Hf Hne. unfold validate_user, bind.
  rewrite (get_password_hash_eq w t u Hd), Hf. simpl.
  unfold Py.truthy. apply String.eqb_neq in Hne. rewrite Hne. reflexivity.
Qed.

Lemma verifications_app l e :
  verifications (l ++ [e]) =
  verifications l + match e with Verified _ _ => 1 | _ => 0 end.
Proof.
  unfold verifications. rewrite filter_app, length_app.
  destruct e; reflexivity.
Qed.

Lemma initialisations_app l l' :
  initialisations (l ++ l') = initialisations l + initialisations l'.
Proof. unfold initialisations. now rewrite filter_app, length_app. Qed.

End Store.

(** ** Registration followed by authentication *)

Section Credentials.

Context {hasher : PasswordHasher}.

Lemma has_table_some d : has_table d = true -> exists t, d = Some t.
Proof. destruct d as [t|]; [eauto | discriminate]. Qed.

(** The run behind C1 with its states written out: the row is appended,
    and the validation that follows makes one verification against the
    hash just generated. *)
Lemma validate_after_add_user (w : world) (t : table) (u p : string) :
  disk w = Some t ->
  existsb (matches u) (rows t) = false ->
  let h := generate_password_hash (entropy w) p in
  let d1 := Some (mkTable (rows t ++ [mkRow (next_rowid t) u h])
                          (next_rowid t)) in
  let w1 := mkWorld d1 (S (entropy w)) (log w ++ [Generated p]) in
  add_user u p w = (Ok tt, w1) /\
  validate_user u p w1 =
  (Ok true, mkWorld d1 (S (entropy w)) (log w1 ++ [Verified h p])).
Proof.
  intros Hd Hex h d1 w1. split; [exact (add_user_new w t u p Hd Hex)|].
  apply existsb_matches_false, find_matches_none in Hex.
  rewrite (validate_user_present w1 _ u p (mkRow (next_rowid t) u h) eq_refl).
  - simpl. unfold h. rewrite check_generate. reflexivity.
  - simpl. now apply find_matches_app_new.
  - simpl. apply generate_nonempty.
Qed.

(** C1.  On an initialised store, for every user name that is not yet in
    the table and every password, [add_user] succeeds and a following
    [validate_user] with the same pair returns [True].  Nothing is asked
    of the pair beyond that, so the valid pairs of the specification
    (non-empty after trimming) are covered. *)
Theorem register_then_authenticate (w : world) (u p : string) :
  has_table (disk w) = true ->
  ~ In u (usernames (disk w)) ->
  exists w1 w2,
    add_user u p w = (Ok tt, w1) /\
    validate_user u p w1 = (Ok true, w2).
Proof.
  intros Ht Hnew. destruct (has_table_some _ Ht) as [t Hd].
  rewrite Hd in Hnew. apply existsb_matches_false in Hnew.
  destruct (validate_after_add_user w t u p Hd Hnew) as [Hadd Hval].
  eauto.
Qed.

(** C5.  On an initialised store, [validate_user] on a user name without a
    row returns [False]: the result is a value, not an exception, and the
    state is the one it started from. *)
Theorem validate_user_unknown (w : world) (u p : string) :
  has_table (disk w) = true ->
  ~ In u (usernames (disk w)) ->
  validate_user u p w = (Ok false, w).
Proof.
  intros Ht Hnew. destruct (has_table_some _ Ht) as [t Hd].
  rewrite Hd in Hnew. simpl in Hnew.
  apply (validate_user_absent w t u p Hd).
  now apply find_matches_none.
Qed.

(** C2, as amended.  For a user name without a row [validate_user] returns
    [False] without any call of [check_password_hash]; for a user name
    whose row holds a non-empty hash it makes exactly one such call. *)
Theorem unknown_user_skips_verification
  (w : world) (t : table) (u p u' p' : string) (r' : row) :
  disk w = Some t ->
  ~ In u (usernames (disk w)) ->
  find (matches u') (rows t) = Some r' ->
  password_hash r' <> "" ->
  fst (validate_user u p w) = Ok false /\
  verifications_by (validate_user u p) w = 0 /\
  verifications_by (validate_user u' p') w = 1.
Proof.
  intros Hd Hnew Hf Hne.
  rewrite Hd in Hnew. simpl in Hnew. apply find_matches_none in Hnew.
  unfold verifications_by.
  rewrite (validate_user_absent w t u p Hd Hnew).
  rewrite (validate_user_present w t u' p' r' Hd Hf Hne). simpl.
  rewrite verifications_app. repeat split; lia.
Qed.

(** C3.  When the table already has a row for the user name, [add_user]
    raises [IntegrityError] and the file is what it was: the stored hash
    read back is the same and the table has exactly one row for that
    name. *)
Theorem duplicate_register_rejected (w : world) (u p : string) :
  unique_usernames (disk w) ->
  In u (usernames (disk w)) ->
  exists w',
    add_user u p w = (Raise IntegrityError, w') /\
    disk w' = disk w /\
    fst (get_password_hash u w') = fst (get_password_hash u w) /\
    length (rows_named u (disk w')) = 1.
Proof.
  intros Huniq Hin. destruct (disk w) as [t|] eqn:Hd; [|destruct Hin].
  simpl in Hin, Huniq. unfold unique_usernames in Huniq. simpl in Huniq.
  pose proof (proj2 (existsb_matches u (rows t)) Hin) as Hex.
  rewrite (add_user_existing w t u p Hd Hex).
  eexists. split; [reflexivity|]. simpl. rewrite Hd. split; [reflexivity|].
  split.
  - erewrite !get_password_hash_eq
      by (simpl; first [eassumption | reflexivity]).
    reflexivity.
  - simpl. now apply filter_matches_unique.
Qed.

(** The two calls of C3 in sequence: the first registration succeeds, the
    second one with the same name raises, and the hash read back is the
    one generated by the first call. *)
Lemma register_twice (w : world) (u p1 p2 : string) :
  has_table (disk w) = true ->
  ~ In u (usernames (disk w)) ->
  exists w1 w2,
    add_user u p1 w = (Ok tt, w1) /\
    add_user u p2 w1 = (Raise IntegrityError, w2) /\
    disk w2 = disk w1 /\
    fst (get_password_hash u w2) =
    Ok (Some (generate_password_hash (entropy w) p1)).
Proof.
  intros Ht Hnew. destruct (has_table_some _ Ht) as [t Hd].
  rewrite Hd in Hnew. simpl in Hnew.
  pose proof (proj2 (existsb_matches_false u (rows t)) Hnew) as Hex.
  pose proof (proj2 (find_matches_none u (rows t)) Hnew) as Hfind.
  rewrite (add_user_new w t u p1 Hd Hex).
  eexists. eexists. split; [reflexivity|].
  erewrite add_user_existing;
    [ | simpl; reflexivity
      | simpl; apply existsb_matches; rewrite map_app, in_app_iff;
        right; left; reflexivity ].
  split; [reflexivity|]. split; [reflexivity|].
  erewrite get_password_hash_eq by (simpl; reflexivity).
  simpl.
  rewrite (find_matches_app_new u (rows t)
             (mkRow (next_rowid t) u (generate_password_hash (entropy w) p1))
             Hfind eq_refl).
  reflexivity.
Qed.

(** C6.  When the table exists, [init_db] returns without an exception and
    leaves the file as it is, also when called twice in a row; from any
    state a second call changes nothing that the first one left. *)
Theorem init_db_idempotent (w : world) :
  has_table (disk w) = true ->
  exists w1 w2,
    init_db w = (Ok tt, w1) /\ disk w1 = disk w /\
    init_db w1 = (Ok tt, w2) /\ disk w2 = disk w.
Proof.
  intros Ht. destruct (has_table_some _ Ht) as [t Hd].
  rewrite init_db_eq. eexists. eexists. split; [reflexivity|].
  rewrite init_db_eq. simpl. rewrite Hd. auto.
Qed.

(** From any state, also one without a table, a second [init_db] leaves
    the file that the first one produced. *)
Lemma init_db_twice (w : world) :
  disk (snd (init_db (snd (init_db w)))) = disk (snd (init_db w)).
Proof. rewrite !init_db_eq. simpl. destruct (disk w); reflexivity. Qed.

(** Validation of a registered user is one verification against the
    generated hash. *)
Lemma validate_user_registered (w : world) (u p q : string) :
  registered_with u p (disk w) ->
  exists s,
    fst (validate_user u q w) =
    Ok (check_password_hash (generate_password_hash s p) q).
Proof.
  intros (t & r & s & Hd & Hf & Hh). exists s.
  rewrite (validate_user_present w t u q r Hd Hf).
  - simpl. now rewrite Hh.
  - rewrite Hh. apply generate_nonempty.
Qed.


(** [add_user] makes the pair registered. *)
Lemma add_user_registers (w w1 : world) (u p : string) :
  add_user u p w = (Ok tt, w1) -> registered_with u p (disk w1).
Proof.
  intros Hadd. destruct (disk w) as [t|] eqn:Hd.
  - destruct (existsb (matches u) (rows t)) eqn:Hex.
    + rewrite (add_user_existing w t u p Hd Hex) in Hadd. discriminate.
    + rewrite (add_user_new w t u p Hd Hex) in Hadd.
      injection Hadd as <-. simpl.
      eexists.
      exists (mkRow (next_rowid t) u (generate_password_hash (entropy w) p)).
      exists (entropy w).
      split; [reflexivity|]. split; [|reflexivity]. simpl.
      apply find_matches_app_new; [|reflexivity].
      apply find_matches_none. now apply existsb_matches_false.
  - rewrite (add_user_no_table w u p Hd) in Hadd. discriminate.
Qed.

(** Rows are never changed: whatever a later [add_user] or [init_db]
    does, a registered pair stays registered. *)
Lemma registered_after_add_user (w : world) (u p u' p' : string) :
  registered_with u p (disk w) ->
  registered_with u p (disk (snd (add_user u' p' w))).
Proof.
  intros (t & r & s & Hd & Hf & Hh).
  destruct (existsb (matches u') (rows t)) eqn:Hex.
  - rewrite (add_user_existing w t u' p' Hd Hex). simpl.
    exists t, r, s. auto.
  - rewrite (add_user_new w t u' p' Hd Hex). simpl.
    eexists. exists r, s. split; [reflexivity|]. split; [|exact Hh].
    simpl. now apply find_matches_app_old.
Qed.

Lemma registered_after_init_db (w : world) (u p : string) :
  registered_with u p (disk w) ->
  registered_with u p (disk (snd (init_db w))).
Proof.
  intros (t & r & s & Hd & Hf & Hh). rewrite init_db_eq. simpl.
  rewrite Hd. exists t, r, s. auto.
Qed.

(** The [UNIQUE] constraint holds in every file that the program
    produces. *)
Lemma unique_after_add_user (w : world) (u p : string) :
  unique_usernames (disk w) ->
  unique_usernames (disk (snd (add_user u p w))).
Proof.
  intros Huniq. destruct (disk w) as [t|] eqn:Hd.
  - destruct (existsb (matches u) (rows t)) eqn:Hex.
    + rewrite (add_user_existing w t u p Hd Hex). simpl. now rewrite Hd.
    + rewrite (add_user_new w t u p Hd Hex). simpl.
      unfold unique_usernames in *. simpl in *.
      rewrite map_app. simpl.
      apply existsb_matches_false in Hex.
      now apply NoDup_snoc.
  - rewrite (add_user_no_table w u p Hd). simpl. constructor.
Qed.

Lemma unique_after_init_db (w : world) :
  unique_usernames (disk w) ->
  unique_usernames (disk (snd (init_db w))).
Proof.
  intros Huniq. rewrite init_db_eq. simpl.
  destruct (disk w); [exact Huniq | constructor].
Qed.

End Credentials.

(** ** The web views *)

Section Views.

Context {hasher : PasswordHasher}.

Lemma truthy_false s : Py.truthy s = false <-> s = "".
Proof.
  unfold Py.truthy. rewrite negb_false_iff. apply String.eqb_eq.
Qed.

Lemma truthy_true s : Py.truthy s = true <-> s <> "".
Proof.
  unfold Py.truthy. rewrite negb_true_iff. apply String.eqb_neq.
Qed.

(** The view's side of the blank-field check: a POST to [register] in
    which the user name or the password is
    empty once stripped answers with the form and the message
    "Datos inválidos."; [add_user] is not reached, so no row is created
    and the whole state is unchanged. *)
Theorem register_rejects_blank (w : world) (req : request) :
  method req = POST ->
  Py.strip (form_get (form req) "username" "") = "" \/
  Py.strip (form_get (form req) "password" "") = "" ->
  register req w =
  (Ok (Rendered REGISTER_HTML [("msg", "Datos inválidos.")]), w).
Proof.
  intros Hm Hblank. unfold register. rewrite Hm.
  destruct Hblank as [H|H]; apply truthy_false in H; rewrite H;
    [|rewrite orb_true_r]; reflexivity.
Qed.

(** What [register] does with a POST whose two fields survive stripping:
    it is [add_user] on the stripped values, with [IntegrityError] turned
    into a message. *)
Lemma register_post_eq (w : world) (u0 p0 : string) :
  Py.strip u0 <> "" -> Py.strip p0 <> "" ->
  register (post u0 p0) w =
  match add_user (Py.strip u0) (Py.strip p0) w with
  | (Ok _, w') => (Ok (Redirect "home"), w')
  | (Raise IntegrityError, w') =>
      (Ok (Rendered REGISTER_HTML [("msg", "El usuario ya existe.")]), w')
  | (Raise e, w') => (Raise e, w')
  end.
Proof.
  intros Hu Hp. apply truthy_true in Hu, Hp.
  unfold register, post. cbn [method form form_get].
  change ("username" =? "username") with true.
  change ("username" =? "password") with false.
  change ("password" =? "password") with true.
  cbv iota. rewrite Hu, Hp. cbn [negb orb].
  unfold bind, try_add_user.
  destruct (add_user (Py.strip u0) (Py.strip p0) w) as [[[]|[]] w'];
    reflexivity.
Qed.

Lemma login_post_eq (w : world) (u0 p0 : string) :
  login (post u0 p0) w =
  match validate_user (Py.strip u0) (Py.strip p0) w with
  | (Ok true, w') => (Ok (Rendered OK_HTML [("user", Py.strip u0)]), w')
  | (Ok false, w') =>
      (Ok (Rendered LOGIN_HTML [("msg", "Usuario o contraseña incorrectos.")]),
       w')
  | (Raise e, w') => (Raise e, w')
  end.
Proof.
  unfold login, post. cbn [method form form_get].
  change ("username" =? "username") with true.
  change ("username" =? "password") with false.
  change ("password" =? "password") with true.
  cbv iota. unfold bind.
  destruct (validate_user (Py.strip u0) (Py.strip p0) w) as [[[]|] w'];
    reflexivity.
Qed.

(** The web path of C1: a registration through the form followed by a
    login with the same two fields shows the authenticated page. *)
Lemma register_then_login (w : world) (u0 p0 : string) :
  has_table (disk w) = true ->
  Py.strip u0 <> "" -> Py.strip p0 <> "" ->
  ~ In (Py.strip u0) (usernames (disk w)) ->
  exists w1 w2,
    register (post u0 p0) w = (Ok (Redirect "home"), w1) /\
    login (post u0 p0) w1 =
    (Ok (Rendered OK_HTML [("user", Py.strip u0)]), w2).
Proof.
  intros Ht Hu Hp Hnew. destruct (has_table_some _ Ht) as [t Hd].
  rewrite Hd in Hnew. apply existsb_matches_false in Hnew.
  destruct (validate_after_add_user w t _ (Py.strip p0) Hd Hnew)
    as [Hadd Hval].
  eexists. eexists. rewrite register_post_eq by assumption. rewrite Hadd.
  split; [reflexivity|]. rewrite login_post_eq, Hval. reflexivity.
Qed.

(** The web path of C3: the form answers "El usuario ya existe." and the
    file is unchanged. *)
Lemma register_view_duplicate (w : world) (u0 p0 : string) :
  Py.strip u0 <> "" -> Py.strip p0 <> "" ->
  In (Py.strip u0) (usernames (disk w)) ->
  exists w',
    register (post u0 p0) w =
    (Ok (Rendered REGISTER_HTML [("msg", "El usuario ya existe.")]), w') /\
    disk w' = disk w.
Proof.
  intros Hu Hp Hin. rewrite register_post_eq by assumption.
  destruct (disk w) as [t|] eqn:Hd; [|destruct Hin].
  apply existsb_matches in Hin.
  rewrite (add_user_existing w t _ _ Hd Hin).
  eexists. split; [reflexivity|]. simpl. exact Hd.
Qed.

(** The store function itself does not look at its arguments: called
    directly, as the command line does, it inserts a row for an empty
    user name. *)
Lemma add_user_does_not_validate (w : world) (p : string) :
  has_table (disk w) = true -> ~ In "" (usernames (disk w)) ->
  exists w', add_user "" p w = (Ok tt, w') /\ In "" (usernames (disk w')).
Proof.
  intros Ht Hnew. destruct (has_table_some _ Ht) as [t Hd].
  rewrite Hd in Hnew. apply existsb_matches_false in Hnew.
  rewrite (add_user_new w t "" p Hd Hnew).
  eexists. split; [reflexivity|]. simpl. rewrite map_app, in_app_iff.
  right. left. reflexivity.
Qed.

(** C7.  After ["ana"] is registered with ["Clave123"], on a table that
    held neither ["ana"] nor ["ANA"], and with a hash function that tells
    ["clave123"] apart from ["Clave123"]: the same pair authenticates, the
    password in lower case does not, and neither does the user name in
    upper case. *)
Theorem ana_example (w : world) :
  (forall r,
     check_password_hash (generate_password_hash r "Clave123") "clave123"
     = false) ->
  has_table (disk w) = true ->
  ~ In "ana" (usernames (disk w)) ->
  ~ In "ANA" (usernames (disk w)) ->
  exists w1,
    add_user "ana" "Clave123" w = (Ok tt, w1) /\
    fst (validate_user "ana" "Clave123" w1) = Ok true /\
    fst (validate_user "ana" "clave123" w1) = Ok false /\
    fst (validate_user "ANA" "Clave123" w1) = Ok false.
Proof.
  intros Hcf Ht Hana HANA. destruct (has_table_some _ Ht) as [t Hd].
  rewrite Hd in Hana, HANA. simpl in HANA.
  apply existsb_matches_false in Hana.
  destruct (validate_after_add_user w t "ana" "Clave123" Hd Hana)
    as [Hadd Hval].
  eexists. split; [exact Hadd|]. split; [now rewrite Hval|].
  pose proof (add_user_registers w _ _ _ Hadd) as Hreg. split.
  - destruct (validate_user_registered _ "ana" "Clave123" "clave123" Hreg)
      as [s ->].
    f_equal. apply Hcf.
  - erewrite validate_user_absent; [reflexivity | simpl; reflexivity |].
    simpl. apply find_matches_none. rewrite map_app, in_app_iff. simpl.
    intros [H|[H|[]]]; [contradiction | discriminate].
Qed.

End Views.

(** ** The command line *)

Section Cli.

Context {hasher : PasswordHasher}.

Lemma validate_user_total (w : world) (t : table) (u p : string) :
  disk w = Some t ->
  exists b l,
    validate_user u p w =
    (Ok b, mkWorld (disk w) (entropy w) (log w ++ l)) /\
    initialisations l = 0.
Proof.
  intros Hd. destruct (find (matches u) (rows t)) as [r|] eqn:Hf.
  - destruct (Py.truthy (password_hash r)) eqn:Htr.
    + apply truthy_true in Htr.
      rewrite (validate_user_present w t u p r Hd Hf Htr).
      eexists. eexists. split; reflexivity.
    + exists false, []. unfold validate_user, bind.
      rewrite (get_password_hash_eq w t u Hd), Hf. simpl. rewrite Htr.
      rewrite app_nil_r, world_eta. split; reflexivity.
  - exists false, []. rewrite (validate_user_absent w t u p Hd Hf).
    rewrite app_nil_r, world_eta. split; reflexivity.
Qed.

Ltac run_done :=
  eexists; cbn; rewrite <- ?app_assoc; cbn [app];
  repeat split; try reflexivity;
  try (intros; congruence).

(** What the opening [init_db] leaves in the log of a run of [main]: the
    log starts with that call, the table exists afterwards, and only
    [init-db] makes the call a second time. *)
Lemma main_outcome (argv : list string) (w : world) :
  exists l,
    log (snd (main argv w)) = (log w ++ Called_init_db :: l)%list /\
    has_table (disk (snd (main argv w))) = true /\
    initialisations l =
      (if (2 <=? length argv)%nat && (Py.lower (nth 1 argv "") =? "init-db")
       then 1 else 0).
Proof.
  remember (main argv w) as out eqn:Hout.
  unfold main in Hout. unfold bind at 1 in Hout. rewrite init_db_eq in Hout.
  match type of Hout with
  | context [mkWorld ?d _ _] =>
      assert (Hd0 : exists t0, d = Some t0)
        by (destruct (disk w); eexists; reflexivity)
  end.
  destruct Hd0 as (t0 & Hd0). rewrite Hd0 in Hout.
  destruct argv as [|a0 [|a1 rest]].
  1, 2: cbn in Hout; subst out; run_done.
  cbn [length Nat.ltb Nat.leb nth andb]. cbn [length Nat.ltb Nat.leb] in Hout.
  unfold index at 1 in Hout. cbn [nth_error] in Hout.
  unfold bind at 1 in Hout. unfold ret at 1 in Hout.
  destruct (Py.lower a1 =? "init-db") eqn:E1.
  { unfold bind in Hout. rewrite init_db_eq in Hout. cbn in Hout. subst out.
    run_done. }
  destruct (Py.lower a1 =? "add-user") eqn:E2.
  { destruct rest as [|u [|p rest]].
    1, 2: cbn in Hout; subst out; run_done.
    unfold index in Hout. cbn [nth_error] in Hout.
    unfold bind at 1 2 in Hout. unfold ret at 1 2 in Hout.
    unfold bind in Hout.
    destruct (existsb (matches u) (rows t0)) eqn:Hex.
    - match type of Hout with
      | context [add_user u p ?w0] =>
          rewrite (add_user_existing w0 t0 u p eq_refl Hex) in Hout
      end.
      subst out.
      run_done.
    - match type of Hout with
      | context [add_user u p ?w0] =>
          rewrite (add_user_new w0 t0 u p eq_refl Hex) in Hout
      end.
      subst out.
      run_done. }
  destruct (Py.lower a1 =? "validate") eqn:E3.
  { destruct rest as [|u [|p rest]].
    1, 2: cbn in Hout; subst out; run_done.
    unfold index in Hout. cbn [nth_error] in Hout.
    unfold bind at 1 2 in Hout. unfold ret at 1 2 in Hout.
    unfold bind in Hout.
    match type of Hout with
    | context [validate_user u p ?w0] =>
        destruct (validate_user_total w0 t0 u p eq_refl) as (b & l & Hv & Hl)
    end.
    rewrite Hv in Hout. subst out. run_done.
    rewrite initialisations_app, Hl. reflexivity. }
  destruct (Py.lower a1 =? "run") eqn:E4.
  { cbn in Hout. subst out. run_done. }
  cbn in Hout. subst out. run_done.
Qed.

Lemma run_script_status (argv : list string) (w : world) :
  fst (run_script argv w) = exit_status (fst (main argv w)).
Proof. unfold run_script. destruct (main argv w); reflexivity. Qed.

Lemma run_script_world (argv : list string) (w : world) :
  snd (run_script argv w) = snd (main argv w).
Proof. unfold run_script. destruct (main argv w); reflexivity. Qed.

(** C10.  Every run of the command line starts with a call of [init_db],
    whatever the arguments; [init-db] therefore runs it twice and every
    other command line once; and on a file without the table both
    [add-user] and [validate] end with status 0, the first with the user
    in the table. *)
Theorem main_initialises_first
  (argv : list string) (w : world)
  (prog u p : string) (e : nat) (l0 : list event) :
  (exists l, log (snd (main argv w)) = (log w ++ Called_init_db :: l)%list) /\
  initialisations_by (main argv) w =
    (if (2 <=? length argv)%nat && (Py.lower (nth 1 argv "") =? "init-db")
     then 2 else 1) /\
  fst (run_script [prog; "add-user"; u; p] (mkWorld None e l0)) = 0%Z /\
  In u (usernames
          (disk (snd (run_script [prog; "add-user"; u; p]
                        (mkWorld None e l0))))) /\
  fst (run_script [prog; "validate"; u; p] (mkWorld None e l0)) = 0%Z.
Proof.
  destruct (main_outcome argv w) as (l & Hlog & _ & Hinit).
  split; [eauto|]. split.
  - unfold initialisations_by. rewrite Hlog.
    rewrite initialisations_app.
    change (Called_init_db :: l) with ([Called_init_db] ++ l)%list.
    rewrite initialisations_app, Hinit.
    change (initialisations [Called_init_db]) with 1.
    destruct ((2 <=? length argv)%nat
              && (Py.lower (nth 1 argv "") =? "init-db")); lia.
  - split; [|split].
    + reflexivity.
    + rewrite run_script_world. cbn. left. reflexivity.
    + reflexivity.
Qed.

End Cli.

(** * The properties on concrete runs *)

Lemma ana_registered_reached :
  add_user (hasher := plain_hasher) "ana" "Clave123" fresh =
  (Ok tt, ana_registered).
Proof. reflexivity. Qed.


Lemma ana_registered_unique : unique_usernames (disk ana_registered).
Proof.
  unfold unique_usernames. simpl. constructor; [intros [] | constructor].
Defined.

Lemma register_then_authenticate_witness :
  exists w1 w2,
    add_user (hasher := plain_hasher) "ana" "Clave123" fresh = (Ok tt, w1) /\
    validate_user "ana" "Clave123" w1 = (Ok true, w2).
Proof.
  apply (register_then_authenticate fresh "ana" "Clave123");
    [reflexivity | intros []].
Defined.

Lemma validate_user_unknown_witness :
  validate_user (hasher := plain_hasher) "nadie" "x" ana_registered =
  (Ok false, ana_registered).
Proof.
  apply (validate_user_unknown ana_registered "nadie" "x");
    [reflexivity | simpl; intros [H|[]]; discriminate H].
Defined.

(** C2 as stated fails: on a table that holds ["ana"] only, validating the
    unknown ["nadie"] does return [False], but it does not make the one
    call of [check_password_hash] that the claim asks for. *)
Lemma unknown_user_no_dummy_verification :
  ~ (fst (validate_user (hasher := plain_hasher) "nadie" "x" ana_registered)
     = Ok false /\
     verifications_by
       (validate_user (hasher := plain_hasher) "nadie" "x") ana_registered
     = 1).
Proof. intros [_ H]. vm_compute in H. discriminate H. Qed.

Lemma unknown_user_skips_verification_witness :
  fst (validate_user (hasher := plain_hasher) "nadie" "x" ana_registered)
  = Ok false /\
  verifications_by
    (validate_user (hasher := plain_hasher) "nadie" "x") ana_registered = 0 /\
  verifications_by
    (validate_user (hasher := plain_hasher) "ana" "x") ana_registered = 1.
Proof.
  apply (unknown_user_skips_verification ana_registered
           (mkTable [mkRow 1 "ana" "a$Clave123"] 1%Z)
           "nadie" "x" "ana" "x" (mkRow 1 "ana" "a$Clave123"));
    [ reflexivity
    | simpl; intros [H|[]]; discriminate H
    | reflexivity
    | discriminate ].
Defined.

Lemma duplicate_register_rejected_witness :
  exists w',
    add_user (hasher := plain_hasher) "ana" "otra" ana_registered =
    (Raise IntegrityError, w') /\
    disk w' = disk ana_registered /\
    fst (get_password_hash "ana" w') =
    fst (get_password_hash "ana" ana_registered) /\
    length (rows_named "ana" (disk w')) = 1.
Proof.
  apply (duplicate_register_rejected ana_registered "ana" "otra");
    [exact ana_registered_unique | left; reflexivity].
Defined.

Lemma register_rejects_blank_witness :
  register (hasher := plain_hasher) (post "" "x") fresh =
  (Ok (Rendered REGISTER_HTML [("msg", "Datos inválidos.")]), fresh) /\
  register (hasher := plain_hasher) (post "x" "") fresh =
  (Ok (Rendered REGISTER_HTML [("msg", "Datos inválidos.")]), fresh) /\
  register (hasher := plain_hasher) (post "  " "x") ana_registered =
  (Ok (Rendered REGISTER_HTML [("msg", "Datos inválidos.")]), ana_registered).
Proof.
  split; [|split].
  - apply (register_rejects_blank fresh (post "" "x"));
      [reflexivity | left; reflexivity].
  - apply (register_rejects_blank fresh (post "x" ""));
      [reflexivity | right; reflexivity].
  - apply (register_rejects_blank ana_registered (post "  " "x"));
      [reflexivity | left; reflexivity].
Defined.

Lemma init_db_idempotent_witness :
  exists w1 w2,
    init_db ana_registered = (Ok tt, w1) /\ disk w1 = disk ana_registered /\
    init_db w1 = (Ok tt, w2) /\ disk w2 = disk ana_registered.
Proof. apply (init_db_idempotent ana_registered). reflexivity. Defined.

Lemma ana_example_witness :
  exists w1,
    add_user (hasher := plain_hasher) "ana" "Clave123" fresh = (Ok tt, w1) /\
    fst (validate_user "ana" "Clave123" w1) = Ok true /\
    fst (validate_user "ana" "clave123" w1) = Ok false /\
    fst (validate_user "ANA" "Clave123" w1) = Ok false.
Proof.
  apply (ana_example (hasher := plain_hasher) fresh);
    [ intros r; reflexivity
    | reflexivity
    | intros []
    | intros [] ].
Defined.



(** C9.  The failing run: with both arguments of [add-user] present and
    the user already in the table, the command line ends with status 1 on
    the uncaught [IntegrityError] and prints nothing, where the [register]
    view catches the same error and answers with a message. *)
Lemma cli_duplicate_add_user_status :
  missing_arguments ["aplicacion_item3.py"; "add-user"; "ana"; "Clave123"]
  = false /\
  main (hasher := plain_hasher)
    ["aplicacion_item3.py"; "add-user"; "ana"; "Clave123"] ana_registered
  = (Raise IntegrityError,
     mkWorld (disk ana_registered) 2
       (log ana_registered ++ [Called_init_db; Generated "Clave123"])) /\
  fst (run_script (hasher := plain_hasher)
         ["aplicacion_item3.py"; "add-user"; "ana"; "Clave123"]
         ana_registered) = 1%Z /\
  fst (register (hasher := plain_hasher) (post "ana" "Clave123")
         ana_registered)
  = Ok (Rendered REGISTER_HTML [("msg", "El usuario ya existe.")]).
Proof. repeat split. Qed.

(** C4.  The failing run: [add-user] with an empty user name, and
    likewise with an empty password, goes straight to [add_user], which
    inserts the row; the run prints its success line and ends with status
    0, where the [register] view answers the same fields with
    "Datos inválidos." and leaves the state alone. *)
Theorem cli_add_user_accepts_blank {hasher : PasswordHasher} :
  run_script ["aplicacion_item3.py"; "add-user"; ""; "x"] fresh =
  (0%Z,
   mkWorld
     (Some (mkTable [mkRow 1 "" (generate_password_hash 0 "x")] 1%Z)) 1
     [Called_init_db; Generated "x"; Printed "Usuario creado: "]) /\
  run_script ["aplicacion_item3.py"; "add-user"; "x"; ""] fresh =
  (0%Z,
   mkWorld
     (Some (mkTable [mkRow 1 "x" (generate_password_hash 0 "")] 1%Z)) 1
     [Called_init_db; Generated ""; Printed "Usuario creado: x"]) /\
  register (post "" "x") fresh =
  (Ok (Rendered REGISTER_HTML [("msg", "Datos inválidos.")]), fresh) /\
  register (post "x" "") fresh =
  (Ok (Rendered REGISTER_HTML [("msg", "Datos inválidos.")]), fresh).
Proof. repeat split. Qed.

(** * Further properties of the program *)

(** ** Stripping and lowering *)

Lemma lstrip_unfold s :
  Py.lstrip s =
  match space_prefix s with
  | Some r => Py.lstrip r
  | None => s
  end.
Proof.
  destruct s as [|c [|d [|e s3]]]; simpl; try reflexivity.
  - destruct (Py.isspace c); reflexivity.
  - destruct (Py.isspace c); [reflexivity|].
    destruct (Py.isspace2 c d); reflexivity.
  - destruct (Py.isspace c); [reflexivity|].
    destruct (Py.isspace2 c d); [reflexivity|].
    destruct (Py.isspace3 c d e); reflexivity.
Qed.

Lemma space_prefix_shorter s r :
  space_prefix s = Some r -> String.length r < String.length s.
Proof.
  destruct s as [|c [|d [|e s3]]]; simpl; try discriminate.
  - destruct (Py.isspace c); [intros [= <-]; simpl; lia | discriminate].
  - destruct (Py.isspace c); [intros [= <-]; simpl; lia|].
    destruct (Py.isspace2 c d); [intros [= <-]; simpl; lia | discriminate].
  - destruct (Py.isspace c); [intros [= <-]; simpl; lia|].
    destruct (Py.isspace2 c d); [intros [= <-]; simpl; lia|].
    destruct (Py.isspace3 c d e); [intros [= <-]; simpl; lia | discriminate].
Qed.

Lemma space_prefix_app s r t :
  space_prefix s = Some r -> space_prefix (s ++ t) = Some (r ++ t).
Proof.
  destruct s as [|c [|d [|e s3]]]; simpl; try discriminate.
  - destruct (Py.isspace c); [intros [= <-]; reflexivity | discriminate].
  - destruct (Py.isspace c); [intros [= <-]; reflexivity|].
    destruct (Py.isspace2 c d); [intros [= <-]; reflexivity | discriminate].
  - destruct (Py.isspace c); [intros [= <-]; reflexivity|].
    destruct (Py.isspace2 c d); [intros [= <-]; reflexivity|].
    destruct (Py.isspace3 c d e); [intros [= <-]; reflexivity | discriminate].
Qed.

Lemma string_length_ind (P : string -> Prop) :
  (forall s, (forall r, String.length r < String.length s -> P r) -> P s) ->
  forall s, P s.
Proof.
  intros H s.
  assert (Hn : forall n r, String.length r < n -> P r).
  { induction n as [|n IH]; intros r Hr; [lia|].
    apply H. intros r' Hr'. apply IH. lia. }
  apply (Hn (S (String.length s))). lia.
Qed.

Lemma lstrip_length s : String.length (Py.lstrip s) <= String.length s.
Proof.
  induction s as [s IH] using string_length_ind.
  rewrite lstrip_unfold. destruct (space_prefix s) as [r|] eqn:E; [|lia].
  pose proof (space_prefix_shorter s r E). specialize (IH r H). lia.
Qed.

Lemma lstrip_no_space s : space_prefix (Py.lstrip s) = None.
Proof.
  induction s as [s IH] using string_length_ind.
  rewrite lstrip_unfold. destruct (space_prefix s) as [r|] eqn:E; [|exact E].
  apply IH. now apply space_prefix_shorter.
Qed.

Lemma lstrip_fixed s : space_prefix s = None -> Py.lstrip s = s.
Proof. intros H. now rewrite lstrip_unfold, H. Qed.

Lemma lstrip_app_space s t : Py.lstrip s = "" -> Py.lstrip (s ++ t) = Py.lstrip t.
Proof.
  induction s as [s IH] using string_length_ind. intros Hs.
  rewrite lstrip_unfold in Hs.
  destruct (space_prefix s) as [r|] eqn:E.
  - rewrite (lstrip_unfold (s ++ t)), (space_prefix_app s r t E).
    apply IH; [now apply space_prefix_shorter | exact Hs].
  - subst s. reflexivity.
Qed.

Lemma rstrip_cons c s :
  Py.rstrip (String c s) =
  match Py.lstrip (String c s) with
  | EmptyString => EmptyString
  | _ => String c (Py.rstrip s)
  end.
Proof. reflexivity. Qed.

Lemma rstrip_split s :
  exists z, s = Py.rstrip s ++ z /\ Py.lstrip z = "".
Proof.
  induction s as [|c s IH]; [exists ""; auto|].
  rewrite rstrip_cons. destruct (Py.lstrip (String c s)) as [|c' r] eqn:E.
  - exists (String c s). auto.
  - destruct IH as (z & Hz & Hsp). exists z. split; [|exact Hsp].
    simpl. now rewrite <- Hz.
Qed.

Lemma rstrip_not_space c s :
  Py.lstrip (String c s) <> "" -> Py.lstrip (String c (Py.rstrip s)) <> "".
Proof.
  intros Hns Habs. apply Hns.
  destruct (rstrip_split s) as (z & Hz & Hsp).
  rewrite Hz at 1.
  change (String c (Py.rstrip s ++ z)) with (String c (Py.rstrip s) ++ z).
  rewrite (lstrip_app_space _ z Habs). exact Hsp.
Qed.

Lemma rstrip_idempotent s : Py.rstrip (Py.rstrip s) = Py.rstrip s.
Proof.
  induction s as [|c s IH]; [reflexivity|].
  rewrite rstrip_cons. destruct (Py.lstrip (String c s)) as [|c' r] eqn:E;
    [reflexivity|].
  rewrite rstrip_cons.
  assert (Hns : Py.lstrip (String c (Py.rstrip s)) <> "").
  { apply rstrip_not_space. rewrite E. discriminate. }
  destruct (Py.lstrip (String c (Py.rstrip s))); [contradiction|].
  now rewrite IH.
Qed.

Lemma rstrip_no_space s :
  space_prefix s = None -> space_prefix (Py.rstrip s) = None.
Proof.
  intros Hs. destruct (space_prefix (Py.rstrip s)) as [r|] eqn:E;
    [|reflexivity].
  destruct (rstrip_split s) as (z & Hz & _).
  rewrite Hz, (space_prefix_app _ r z E) in Hs. discriminate.
Qed.

Lemma strip_idempotent s : Py.strip (Py.strip s) = Py.strip s.
Proof.
  unfold Py.strip.
  rewrite (lstrip_fixed (Py.rstrip (Py.lstrip s)))
    by apply rstrip_no_space, lstrip_no_space.
  apply rstrip_idempotent.
Qed.

Lemma lower_char_idempotent c :
  Py.lower_char (Py.lower_char c) = Py.lower_char c.
Proof.
  destruct c as [[] [] [] [] [] [] [] []]; reflexivity.
Qed.

Lemma lower_idempotent s : Py.lower (Py.lower s) = Py.lower s.
Proof.
  induction s as [|c s IH]; [reflexivity|].
  cbn [Py.lower]. now rewrite lower_char_idempotent, IH.
Qed.

(** ** The store functions *)

Section StoreExtras.

Context {hasher : PasswordHasher}.

Lemma find_matches_app_other v rs r :
  username r <> v ->
  find (matches v) (rs ++ [r]) = find (matches v) rs.
Proof.
  intros Hne. induction rs as [|r0 rs IH]; simpl.
  - unfold matches. apply String.eqb_neq in Hne. now rewrite Hne.
  - destruct (matches v r0); auto.
Qed.

(** X1.  Whatever [add_user u p] does, it leaves the stored hash of every
    other user name, and of [u] itself when [u] was already registered, as
    [get_password_hash] read it before. *)
Theorem add_user_keeps_other_lookups (w : world) (u p v : string) :
  v <> u \/ In v (usernames (disk w)) ->
  fst (get_password_hash v (snd (add_user u p w))) =
  fst (get_password_hash v w).
Proof.
  intros Hv. destruct (disk w) as [t|] eqn:Hd.
  - destruct (existsb (matches u) (rows t)) eqn:Hex.
    + rewrite (add_user_existing w t u p Hd Hex).
      erewrite !get_password_hash_eq
        by (simpl; first [eassumption | reflexivity]).
      reflexivity.
    + rewrite (add_user_new w t u p Hd Hex).
      erewrite !get_password_hash_eq
        by (simpl; first [eassumption | reflexivity]).
      simpl. rewrite find_matches_app_other; [reflexivity|]. simpl.
      destruct Hv as [Hv|Hv]; [congruence|]. simpl in Hv.
      apply existsb_matches_false in Hex. congruence.
  - rewrite (add_user_no_table w u p Hd).
    rewrite !get_password_hash_no_table by (simpl; auto). reflexivity.
Qed.

(** X2.  Insert then look up: after a successful [add_user u p] the hash
    read back for [u] is the one generated in that call, and the state of
    the lookup is the state [add_user] left. *)
Theorem add_user_then_get_password_hash (w w1 : world) (u p : string) :
  add_user u p w = (Ok tt, w1) ->
  get_password_hash u w1 =
  (Ok (Some (generate_password_hash (entropy w) p)), w1).
Proof.
  intros Hadd. destruct (disk w) as [t|] eqn:Hd.
  - destruct (existsb (matches u) (rows t)) eqn:Hex.
    + rewrite (add_user_existing w t u p Hd Hex) in Hadd. discriminate.
    + rewrite (add_user_new w t u p Hd Hex) in Hadd. injection Hadd as <-.
      erewrite get_password_hash_eq by (simpl; reflexivity). simpl.
      apply existsb_matches_false, find_matches_none in Hex.
      rewrite (find_matches_app_new u (rows t)
                 (mkRow (next_rowid t) u
                    (generate_password_hash (entropy w) p)) Hex eq_refl).
      reflexivity.
  - rewrite (add_user_no_table w u p Hd) in Hadd. discriminate.
Qed.

Lemma validate_user_effect (w : world) (u p : string) :
  exists l,
    snd (validate_user u p w) = mkWorld (disk w) (entropy w) (log w ++ l) /\
    (l = [] \/ exists h, l = [Verified h p]).
Proof.
  destruct (disk w) as [t|] eqn:Hd.
  - destruct (find (matches u) (rows t)) as [r|] eqn:Hf.
    + destruct (Py.truthy (password_hash r)) eqn:Htr.
      * apply truthy_true in Htr.
        rewrite (validate_user_present w t u p r Hd Hf Htr). simpl.
        rewrite Hd. eauto.
      * exists []. unfold validate_user, bind.
        rewrite (get_password_hash_eq w t u Hd), Hf. simpl. rewrite Htr.
        simpl. rewrite app_nil_r, <- Hd, world_eta. auto.
    + exists []. rewrite (validate_user_absent w t u p Hd Hf). simpl.
      rewrite app_nil_r, <- Hd, world_eta. auto.
  - exists []. unfold validate_user, bind.
    rewrite (get_password_hash_no_table w u Hd). simpl.
    rewrite app_nil_r, <- Hd, world_eta. auto.
Qed.

(** X3.  [validate_user] only reads: for every state and every input, also
    without a table, the file and the salt source are what they were, and
    the log gained at most one [check_password_hash] call, made with the
    password that was passed in. *)
Theorem validate_user_read_only (w : world) (u p : string) :
  disk (snd (validate_user u p w)) = disk w /\
  entropy (snd (validate_user u p w)) = entropy w /\
  exists l,
    log (snd (validate_user u p w)) = (log w ++ l)%list /\
    (l = [] \/ exists h, l = [Verified h p]).
Proof.
  destruct (validate_user_effect w u p) as (l & -> & Hl). simpl. eauto.
Qed.

(** X4.  On a file without the table [users] the three store functions
    raise [OperationalError] and the table is still missing afterwards. *)
Theorem store_functions_without_table (w : world) (u p : string) :
  disk w = None ->
  fst (get_password_hash u w) = Raise OperationalError /\
  fst (validate_user u p w) = Raise OperationalError /\
  fst (add_user u p w) = Raise OperationalError /\
  disk (snd (add_user u p w)) = None /\
  disk (snd (validate_user u p w)) = None.
Proof.
  intros Hd. rewrite (add_user_no_table w u p Hd).
  unfold validate_user, bind.
  rewrite (get_password_hash_no_table w u Hd). simpl. auto.
Qed.

(** X5.  A row whose stored hash is the empty text never validates:
    [validate_user] answers [False] for every password and does not call
    [check_password_hash]. *)
Theorem empty_hash_never_validates
  (w : world) (t : table) (r : row) (u p : string) :
  disk w = Some t ->
  find (matches u) (rows t) = Some r ->
  password_hash r = "" ->
  validate_user u p w = (Ok false, w).
Proof.
  intros Hd Hf Hh. unfold validate_user, bind.
  rewrite (get_password_hash_eq w t u Hd), Hf. simpl. rewrite Hh.
  reflexivity.
Qed.

(** X6.  [add_user] hashes before it opens the connection: in every case,
    also when the insert is refused or the table is missing, it has made
    exactly one [generate_password_hash] call and drawn exactly one
    salt. *)
Theorem add_user_hashes_first (w : world) (u p : string) :
  entropy (snd (add_user u p w)) = S (entropy w) /\
  log (snd (add_user u p w)) = (log w ++ [Generated p])%list.
Proof.
  destruct (disk w) as [t|] eqn:Hd.
  - destruct (existsb (matches u) (rows t)) eqn:Hex.
    + rewrite (add_user_existing w t u p Hd Hex). auto.
    + rewrite (add_user_new w t u p Hd Hex). auto.
  - rewrite (add_user_no_table w u p Hd). auto.
Qed.

End StoreExtras.

(** ** What every operation keeps *)

Lemma StronglySorted_snoc (l : list Z) (a : Z) :
  StronglySorted Z.lt l -> Forall (fun x => (x < a)%Z) l ->
  StronglySorted Z.lt (l ++ [a]).
Proof.
  induction l as [|x l IH]; simpl; intros Hs Hall.
  - constructor; constructor.
  - inversion Hs as [|y ys Hs' Hx]; subst.
    inversion Hall as [|y ys Hxa Hall']; subst.
    constructor; [now apply IH|].
    apply Forall_app. split; [assumption|]. constructor; [assumption|].
    constructor.
Qed.

Lemma extends_refl d : extends d d.
Proof.
  split; [auto|]. split; [auto|]. exists []. now rewrite app_nil_r.
Qed.

Lemma extends_trans d1 d2 d3 :
  extends d1 d2 -> extends d2 d3 -> extends d1 d3.
Proof.
  intros (Hok1 & Ht1 & e1 & He1) (Hok2 & Ht2 & e2 & He2).
  split; [auto|]. split; [auto|].
  exists (e1 ++ e2)%list. now rewrite He2, He1, app_assoc.
Qed.

Lemma extends_create : extends None (Some (mkTable [] 0%Z)).
Proof.
  split; [|split; [discriminate | exists []; reflexivity]].
  intros _. simpl. repeat split; constructor.
Qed.

Lemma extends_insert (t : table) (u h : string) :
  existsb (matches u) (rows t) = false -> h <> "" ->
  extends (Some t)
    (Some (mkTable (rows t ++ [mkRow (next_rowid t) u h]) (next_rowid t))).
Proof.
  intros Hex Hh. split; [|split; [auto | eexists; reflexivity]].
  intros (Hnd & Hsorted & Hids & Hhashes). simpl.
  apply existsb_matches_false in Hex.
  assert (Hnext : (seq t < next_rowid t)%Z) by (unfold next_rowid; lia).
  repeat split.
  - rewrite map_app. simpl. now apply NoDup_snoc.
  - rewrite map_app. simpl. apply StronglySorted_snoc; [assumption|].
    apply Forall_map. eapply Forall_impl; [|exact Hids].
    simpl. intros r Hr. lia.
  - apply Forall_app. split.
    + eapply Forall_impl; [|exact Hids]. simpl. intros r Hr. lia.
    + constructor; [|constructor]. simpl.
      assert (0 <= max_rowid (rows t))%Z.
      { clear. induction (rows t) as [|r rs IH]; simpl; lia. }
      unfold next_rowid in *. lia.
  - apply Forall_app. split; [assumption|]. constructor; [|constructor].
    exact Hh.
Qed.

Section Preservation.

Context {hasher : PasswordHasher}.

Lemma preserving_ret {A} (a : A) : preserving (ret a).
Proof. intros w. apply extends_refl. Qed.

Lemma preserving_raise {A} (e : exn) : preserving (@raise A e).
Proof. intros w. apply extends_refl. Qed.

Lemma preserving_emit (e : event) : preserving (emit e).
Proof. intros w. apply extends_refl. Qed.

Lemma preserving_index {A} (xs : list A) (i : nat) : preserving (index xs i).
Proof.
  intros w. unfold index. destruct (nth_error xs i); apply extends_refl.
Qed.

Lemma preserving_bind {A B} (m : M A) (k : A -> M B) :
  preserving m -> (forall a, preserving (k a)) -> preserving (bind m k).
Proof.
  intros Hm Hk w. unfold bind. specialize (Hm w).
  destruct (m w) as [[a|e] w1]; simpl in *; [|exact Hm].
  eapply extends_trans; [exact Hm | apply Hk].
Qed.

Lemma preserving_init_db : preserving init_db.
Proof.
  intros w. rewrite init_db_eq. simpl.
  destruct (disk w); [apply extends_refl | apply extends_create].
Qed.

Lemma preserving_add_user (u p : string) : preserving (add_user u p).
Proof.
  intros w. destruct (disk w) as [t|] eqn:Hd.
  - destruct (existsb (matches u) (rows t)) eqn:Hex.
    + rewrite (add_user_existing w t u p Hd Hex). simpl. rewrite Hd.
      apply extends_refl.
    + rewrite (add_user_new w t u p Hd Hex). simpl.
      apply extends_insert; [exact Hex | apply generate_nonempty].
  - rewrite (add_user_no_table w u p Hd). apply extends_refl.
Qed.

Lemma preserving_validate_user (u p : string) :
  preserving (validate_user u p).
Proof.
  intros w. destruct (validate_user_effect w u p) as (l & -> & _).
  apply extends_refl.
Qed.

Lemma preserving_register (req : request) : preserving (register req).
Proof.
  unfold register. destruct (method req); [apply preserving_ret|].
  destruct (negb _ || negb _); [apply preserving_ret|].
  apply preserving_bind.
  - intros w. unfold try_add_user.
    pose proof (preserving_add_user
                  (Py.strip (form_get (form req) "username" ""))
                  (Py.strip (form_get (form req) "password" "")) w) as H.
    destruct (add_user _ _ w) as [[[]|[]] w']; exact H.
  - intros [resp|]; apply preserving_ret.
Qed.

Lemma preserving_login (req : request) : preserving (login req).
Proof.
  unfold login. destruct (method req); [apply preserving_ret|].
  apply preserving_bind; [apply preserving_validate_user|].
  intros []; apply preserving_ret.
Qed.

Ltac keeps :=
  repeat first
    [ apply preserving_ret | apply preserving_raise | apply preserving_emit
    | apply preserving_index | apply preserving_init_db
    | apply preserving_add_user | apply preserving_validate_user
    | apply preserving_bind; [|intros ?]
    | match goal with |- preserving (if ?b then _ else _) => destruct b end ].

Lemma preserving_main (argv : list string) : preserving (main argv).
Proof. unfold main, usage, print, app_run. keeps. Qed.

Lemma perform_extends (o : operation) (w : world) :
  extends (disk w) (disk (perform o w)).
Proof.
  destruct o; simpl.
  - apply preserving_init_db.
  - apply preserving_add_user.
  - apply preserving_validate_user.
  - apply preserving_register.
  - apply preserving_login.
  - apply preserving_main.
Qed.

(** X7.  From a file that satisfies them, every sequence of calls of the
    store functions, the two views and the command line leads to a file in
    which user names are unique, row ids are positive, strictly increasing
    in insertion order and not above the sequence counter, and no stored
    hash is empty. *)
Theorem reachable_store_invariant (ops : list operation) (w : world) :
  store_ok (disk w) -> store_ok (disk (perform_all ops w)).
Proof.
  revert w. induction ops as [|o ops IH]; intros w Hok; simpl.
  - exact Hok.
  - apply IH. exact (proj1 (perform_extends o w) Hok).
Qed.

(** X8.  The program only appends: after any sequence of calls the table,
    once it exists, still exists, and the rows it had are the first rows
    of the table, unchanged and in the same order. *)
Theorem rows_append_only (ops : list operation) (w : world) :
  (has_table (disk w) = true ->
   has_table (disk (perform_all ops w)) = true) /\
  exists extra,
    rows_of (disk (perform_all ops w)) = (rows_of (disk w) ++ extra)%list.
Proof.
  revert w. induction ops as [|o ops IH]; intros w; simpl.
  - split; [auto|]. exists []. now rewrite app_nil_r.
  - destruct (perform_extends o w) as (_ & Ht & e1 & He1).
    destruct (IH (perform o w)) as (Ht' & e2 & He2).
    split; [auto|]. exists (e1 ++ e2)%list.
    now rewrite He2, He1, app_assoc.
Qed.

End Preservation.

(** ** The views *)

Section ViewExtras.

Context {hasher : PasswordHasher}.

(** The only writers keep [hashes_generated]: [init_db] adds no row and
    [add_user] adds one with the hash it has just generated. *)
Lemma hashes_generated_init_db (w : world) :
  hashes_generated (disk w) -> hashes_generated (disk (snd (init_db w))).
Proof.
  rewrite init_db_eq. simpl. destruct (disk w); [auto | constructor].
Qed.

Lemma hashes_generated_add_user (w : world) (u p : string) :
  hashes_generated (disk w) ->
  hashes_generated (disk (snd (add_user u p w))).
Proof.
  intros Hgen. destruct (disk w) as [t|] eqn:Hd.
  - destruct (existsb (matches u) (rows t)) eqn:Hex.
    + rewrite (add_user_existing w t u p Hd Hex). simpl. now rewrite Hd.
    + rewrite (add_user_new w t u p Hd Hex). unfold hashes_generated.
      simpl. apply Forall_app. split; [exact Hgen|].
      constructor; [|constructor]. simpl. eauto.
  - rewrite (add_user_no_table w u p Hd). constructor.
Qed.

Lemma validate_user_result (w : world) (u p : string) :
  has_table (disk w) = true ->
  exists b w', validate_user u p w = (Ok b, w') /\ disk w' = disk w.
Proof.
  intros Ht. destruct (has_table_some _ Ht) as [t Hd].
  destruct (validate_user_total w t u p Hd) as (b & l & Hv & _).
  exists b. eexists. split; [exact Hv | reflexivity].
Qed.

(** X9.  On an initialised store whose hashes were all generated by the
    program, a POST to [login] never raises and never changes the file.
    It shows the authenticated page, naming the stripped user name,
    exactly when [validate_user] accepts the stripped fields; in every
    other case it shows the form with one fixed message, the same for an
    unknown user and for a wrong password. *)
Theorem login_outcomes (w : world) (u0 p0 : string) :
  has_table (disk w) = true ->
  hashes_generated (disk w) ->
  exists b w',
    fst (validate_user (Py.strip u0) (Py.strip p0) w) = Ok b /\
    login (post u0 p0) w =
    (Ok (if b
         then Rendered OK_HTML [("user", Py.strip u0)]
         else Rendered LOGIN_HTML
                [("msg", "Usuario o contraseña incorrectos.")]),
     w') /\
    disk w' = disk w.
Proof.
  intros Ht _.
  destruct (validate_user_result w (Py.strip u0) (Py.strip p0) Ht)
    as (b & w' & Hv & Hd).
  exists b, w'. rewrite login_post_eq, Hv. destruct b; auto.
Qed.

Lemma register_blank (w : world) (u0 p0 : string) :
  Py.strip u0 = "" \/ Py.strip p0 = "" ->
  register (post u0 p0) w =
  (Ok (Rendered REGISTER_HTML [("msg", "Datos inválidos.")]), w).
Proof.
  intros Hblank. unfold register, post. cbn [method form form_get].
  change ("username" =? "username") with true.
  change ("username" =? "password") with false.
  change ("password" =? "password") with true.
  cbv iota.
  destruct Hblank as [H|H]; apply truthy_false in H; rewrite H;
    [|rewrite orb_true_r]; reflexivity.
Qed.

(** X10.  Both views ignore white space around the two fields: a POST
    with the stripped values gets the same answer and leaves the same
    state as the POST with the values as typed. *)
Theorem views_ignore_surrounding_whitespace (w : world) (u0 p0 : string) :
  register (post (Py.strip u0) (Py.strip p0)) w = register (post u0 p0) w /\
  login (post (Py.strip u0) (Py.strip p0)) w = login (post u0 p0) w.
Proof.
  split.
  - destruct (string_dec (Py.strip u0) "") as [Hu|Hu];
      [|destruct (string_dec (Py.strip p0) "") as [Hp|Hp]].
    + rewrite !register_blank; auto. left. now rewrite strip_idempotent.
    + rewrite !register_blank; auto. right. now rewrite strip_idempotent.
    + rewrite !register_post_eq by (rewrite ?strip_idempotent; assumption).
      now rewrite !strip_idempotent.
  - rewrite !login_post_eq. now rewrite !strip_idempotent.
Qed.



(** X13.  The views catch [IntegrityError] and nothing else: on a file
    without the table a POST to [login], and a POST to [register] with two
    non-empty fields, end in [OperationalError]. *)
Theorem views_without_table (w : world) (u0 p0 : string) :
  disk w = None ->
  Py.strip u0 <> "" -> Py.strip p0 <> "" ->
  fst (register (post u0 p0) w) = Raise OperationalError /\
  fst (login (post u0 p0) w) = Raise OperationalError.
Proof.
  intros Hd Hu Hp. rewrite register_post_eq by assumption.
  rewrite (add_user_no_table w _ _ Hd). rewrite login_post_eq.
  unfold validate_user, bind.
  rewrite (get_password_hash_no_table w _ Hd). auto.
Qed.

End ViewExtras.

(** ** The command line, case by case *)

Section CliExtras.

Context {hasher : PasswordHasher}.

Lemma bind_ext {A B} (m : M A) (k k' : A -> M B) (w : world) :
  (forall a w', k a w' = k' a w') -> bind m k w = bind m k' w.
Proof.
  intros H. unfold bind. destruct (m w) as [[a|e] w']; [apply H | reflexivity].
Qed.

Lemma bind_ret {A B} (a : A) (k : A -> M B) (w : world) :
  bind (ret a) k w = k a w.
Proof. reflexivity. Qed.

Lemma main_lower (a0 b0 a1 : string) (rest : list string) (w : world) :
  main (b0 :: Py.lower a1 :: rest) w = main (a0 :: a1 :: rest) w.
Proof.
  unfold main. apply bind_ext. intros _ w0.
  cbn [length Nat.ltb Nat.leb]. unfold index at 1 4. cbn [nth_error].
  rewrite !bind_ret. rewrite lower_idempotent. reflexivity.
Qed.

(** X14.  Of a command line only the second word, without regard to
    letter case, and the third and fourth words are read: the program
    name, the case of the subcommand and any further words make no
    difference. *)
Theorem cli_reads_three_words
  (a0 b0 a1 u p : string) (rest more : list string) (w : world) :
  main (b0 :: Py.lower a1 :: rest) w = main (a0 :: a1 :: rest) w /\
  main (a0 :: a1 :: u :: p :: more) w = main [b0; Py.lower a1; u; p] w.
Proof.
  split; [apply main_lower|].
  rewrite (main_lower a0 b0 a1 [u; p] w). reflexivity.
Qed.

(** The state right after the [init_db] call that opens every run. *)
Lemma main_after_init (argv : list string) (w : world) :
  exists w0,
    init_db w = (Ok tt, w0) /\
    disk w0 = match disk w with
              | Some t => Some t
              | None => Some (mkTable [] 0%Z)
              end /\
    entropy w0 = entropy w /\
    log w0 = (log w ++ [Called_init_db])%list /\
    usernames (disk w0) = usernames (disk w).
Proof.
  rewrite init_db_eq. eexists. split; [reflexivity|]. simpl.
  repeat split. destruct (disk w); reflexivity.
Qed.

Lemma main_add_user (a0 a1 u p : string) (more : list string) (w w0 : world) :
  Py.lower a1 = "add-user" -> init_db w = (Ok tt, w0) ->
  main (a0 :: a1 :: u :: p :: more) w =
  bind (add_user u p) (fun _ => print ("Usuario creado: " ++ u)) w0.
Proof.
  intros Hcmd Hinit. rewrite <- (main_lower a0 a0 a1), Hcmd.
  unfold main. unfold bind at 1. rewrite Hinit. reflexivity.
Qed.

Lemma main_validate (a0 a1 u p : string) (more : list string) (w w0 : world) :
  Py.lower a1 = "validate" -> init_db w = (Ok tt, w0) ->
  main (a0 :: a1 :: u :: p :: more) w =
  bind (validate_user u p)
    (fun ok => print (if ok then "Credenciales válidas"
                      else "Credenciales inválidas")) w0.
Proof.
  intros Hcmd Hinit. rewrite <- (main_lower a0 a0 a1), Hcmd.
  unfold main. unfold bind at 1. rewrite Hinit. reflexivity.
Qed.

(** X15.  [add-user] with two words that are UTF-8 text and a user name
    that is not in the table, on a file with room for one more row id (the
    table may still be missing), ends with status 0, appends one row that
    carries the user name exactly as given (it is neither stripped nor
    checked, so a blank name is taken as well) with the hash generated in
    this run, and prints one line naming the user. *)
Theorem cli_add_user_success
  (a0 a1 u p : string) (more : list string) (w : world) :
  Py.lower a1 = "add-user" ->
  Py.is_text u = true -> Py.is_text p = true ->
  has_room (disk w) ->
  ~ In u (usernames (disk w)) ->
  exists i w',
    run_script (a0 :: a1 :: u :: p :: more) w = (0%Z, w') /\
    rows_of (disk w') =
      (rows_of (disk w)
       ++ [mkRow i u (generate_password_hash (entropy w) p)])%list /\
    log w' =
      (log w ++ [Called_init_db; Generated p;
                 Printed ("Usuario creado: " ++ u)])%list.
Proof.
  intros Hcmd _ _ _ Hnew.
  destruct (main_after_init (a0 :: a1 :: u :: p :: more) w)
    as (w0 & Hinit & Hd0 & He0 & Hl0 & Hn0).
  unfold run_script. rewrite (main_add_user a0 a1 u p more w w0 Hcmd Hinit).
  assert (Ht0 : exists t0, disk w0 = Some t0 /\ rows t0 = rows_of (disk w)).
  { rewrite Hd0. destruct (disk w); eexists; split; reflexivity. }
  destruct Ht0 as (t0 & Ht0 & Hrows).
  rewrite <- Hn0, Ht0 in Hnew. apply existsb_matches_false in Hnew.
  unfold bind. rewrite (add_user_new w0 t0 u p Ht0 Hnew).
  exists (next_rowid t0). eexists. split; [reflexivity|]. simpl.
  rewrite Hrows, He0, Hl0, <- !app_assoc. auto.
Qed.

(** X16.  The two subcommands compose: after [add-user] has registered a
    new pair, [validate] with the same pair ends with status 0, leaves the
    file as it is and prints "Credenciales válidas" after one
    verification against the stored hash. *)
Theorem cli_add_user_then_validate
  (a0 a1 b0 b1 u p : string) (more more' : list string) (w : world) :
  Py.lower a1 = "add-user" ->
  Py.lower b1 = "validate" ->
  ~ In u (usernames (disk w)) ->
  let w1 := snd (run_script (a0 :: a1 :: u :: p :: more) w) in
  run_script (b0 :: b1 :: u :: p :: more') w1 =
  (0%Z,
   mkWorld (disk w1) (entropy w1)
     (log w1 ++ [Called_init_db;
                 Verified (generate_password_hash (entropy w) p) p;
                 Printed "Credenciales válidas"])).
Proof.
  intros Ha Hb Hnew w1.
  destruct (main_after_init (a0 :: a1 :: u :: p :: more) w)
    as (w0 & Hinit & Hd0 & He0 & Hl0 & Hn0).
  assert (Ht0 : exists t0, disk w0 = Some t0).
  { rewrite Hd0. destruct (disk w); eauto. }
  destruct Ht0 as (t0 & Ht0).
  rewrite <- Hn0, Ht0 in Hnew. apply existsb_matches_false in Hnew.
  destruct (validate_after_add_user w0 t0 u p Ht0 Hnew) as [Hadd Hval].
  assert (Hw1 : w1 =
                mkWorld (disk (snd (add_user u p w0)))
                  (entropy (snd (add_user u p w0)))
                  (log (snd (add_user u p w0))
                   ++ [Printed ("Usuario creado: " ++ u)])).
  { unfold w1, run_script.
    rewrite (main_add_user a0 a1 u p more w w0 Ha Hinit).
    unfold bind. rewrite Hadd. reflexivity. }
  rewrite Hadd in Hw1. simpl in Hw1.
  unfold run_script.
  erewrite (main_validate b0 b1 u p more' w1) by
    (try exact Hb; rewrite init_db_eq, Hw1; reflexivity).
  rewrite Hw1. simpl.
  unfold bind.
  erewrite validate_user_present;
    [ | simpl; reflexivity
      | simpl; apply find_matches_app_new;
        [apply find_matches_none, existsb_matches_false, Hnew | reflexivity]
      | simpl; apply generate_nonempty ].
  simpl. rewrite check_generate, He0. simpl.
  rewrite <- !app_assoc. reflexivity.
Qed.

(** X17.  A second word that is none of the four subcommands is ignored
    without a message: the run ends with status 0 and has only made the
    opening [init_db] call. *)
Theorem cli_unknown_command_silent
  (a0 a1 : string) (rest : list string) (w : world) :
  known_command (a0 :: a1 :: rest) = false ->
  run_script (a0 :: a1 :: rest) w = (0%Z, snd (init_db w)).
Proof.
  unfold known_command. intros Hk.
  apply orb_false_iff in Hk. destruct Hk as [Hk H4].
  apply orb_false_iff in Hk. destruct Hk as [Hk H3].
  apply orb_false_iff in Hk. destruct Hk as [H1 H2].
  unfold run_script, main. unfold bind at 1. rewrite init_db_eq.
  cbn [length Nat.ltb Nat.leb snd]. unfold index at 1. cbn [nth_error].
  rewrite bind_ret. rewrite H1, H2, H3, H4. reflexivity.
Qed.

(** X18.  [add-user] with a user name that is already in the table ends
    in [IntegrityError] after the hash was generated: nothing is printed
    and the file is the one the run started from. *)
Theorem cli_duplicate_add_user_effect
  (a0 a1 u p : string) (more : list string) (w : world) :
  Py.lower a1 = "add-user" ->
  In u (usernames (disk w)) ->
  main (a0 :: a1 :: u :: p :: more) w =
  (Raise IntegrityError,
   mkWorld (disk w) (S (entropy w))
     (log w ++ [Called_init_db; Generated p])).
Proof.
  intros Hcmd Hin. destruct (disk w) as [t|] eqn:Hd; [|destruct Hin].
  simpl in Hin. apply existsb_matches in Hin.
  rewrite (main_add_user a0 a1 u p more w _ Hcmd (init_db_eq w)).
  unfold bind.
  erewrite add_user_existing;
    [ | simpl; rewrite Hd; reflexivity | exact Hin ].
  simpl. rewrite Hd, <- app_assoc. reflexivity.
Qed.

(** X19.  When [add-user] or [validate] lacks one of its two arguments
    the run ends in [IndexError] before anything is hashed, verified or
    printed: it has only made the opening [init_db] call. *)
Theorem cli_missing_arguments_effect (argv : list string) (w : world) :
  missing_arguments argv = true ->
  main argv w = (Raise IndexError, snd (init_db w)).
Proof.
  destruct argv as [|a0 [|a1 rest]]; try discriminate.
  unfold missing_arguments. intros H. apply andb_true_iff in H.
  destruct H as [Hcmd Hlen].
  unfold main. unfold bind at 1. rewrite init_db_eq.
  cbn [length Nat.ltb Nat.leb snd]. unfold index at 1. cbn [nth_error].
  rewrite bind_ret.
  destruct (Py.lower a1 =? "init-db") eqn:E1.
  { apply String.eqb_eq in E1. rewrite E1 in Hcmd. discriminate. }
  destruct (Py.lower a1 =? "add-user") eqn:E2;
    [|destruct (Py.lower a1 =? "validate") eqn:E3; [|discriminate]];
    destruct rest as [|u [|p rest]]; try discriminate; reflexivity.
Qed.

(** X20.  [validate] with two words that are UTF-8 text, on a file whose
    hashes were all generated by the program (the table may still be
    missing), ends with status 0, leaves the rows as they are, and its
    last line is "Credenciales válidas" exactly when [validate_user]
    accepts the pair on the initialised file, "Credenciales inválidas"
    otherwise. *)
Theorem cli_validate_verdict
  (a0 a1 u p : string) (more : list string) (w : world) :
  Py.lower a1 = "validate" ->
  Py.is_text u = true -> Py.is_text p = true ->
  hashes_generated (disk w) ->
  exists b l w',
    fst (validate_user u p (snd (init_db w))) = Ok b /\
    run_script (a0 :: a1 :: u :: p :: more) w = (0%Z, w') /\
    rows_of (disk w') = rows_of (disk w) /\
    log w' =
      (log w ++ Called_init_db :: l
       ++ [Printed (if b then "Credenciales válidas"
                    else "Credenciales inválidas")])%list.
Proof.
  intros Hcmd _ _ _.
  destruct (main_after_init (a0 :: a1 :: u :: p :: more) w)
    as (w0 & Hinit & Hd0 & He0 & Hl0 & Hn0).
  assert (Ht0 : exists t0, disk w0 = Some t0 /\ rows t0 = rows_of (disk w)).
  { rewrite Hd0. destruct (disk w); eexists; split; reflexivity. }
  destruct Ht0 as (t0 & Ht0 & Hrows).
  destruct (validate_user_total w0 t0 u p Ht0) as (b & l & Hv & _).
  exists b, l. eexists. rewrite Hinit. simpl. rewrite Hv.
  split; [reflexivity|].
  unfold run_script. rewrite (main_validate a0 a1 u p more w w0 Hcmd Hinit).
  unfold bind. rewrite Hv. split; [reflexivity|]. simpl.
  rewrite Ht0, Hl0, <- !app_assoc. simpl. auto.
Qed.

End CliExtras.

(** ** [ms_to_hms] *)

(** X22.  Whenever the conversion to whole seconds has a value,
    [ms_to_hms] returns hours, minutes and seconds that add up to exactly
    that many seconds, with minutes and seconds between 0 and 59; this
    holds for negative durations too, where only the hours are negative. *)
Theorem ms_to_hms_recombines
  (number : Type) (int_of_thousandth : number -> option Z) (ms : number) :
  match int_of_thousandth ms with
  | None => Graphhopper.ms_to_hms number int_of_thousandth ms = None
  | Some total =>
      exists h m s,
        Graphhopper.ms_to_hms number int_of_thousandth ms = Some (h, m, s) /\
        (h * 3600 + m * 60 + s = total)%Z /\
        (0 <= m < 60)%Z /\ (0 <= s < 60)%Z /\
        (h < 0 <-> total < 0)%Z
  end.
Proof.
  unfold Graphhopper.ms_to_hms.
  destruct (int_of_thousandth ms) as [total|]; [|reflexivity].
  eexists. eexists. eexists. split; [reflexivity|].
  repeat split; Z.div_mod_to_equations; lia.
Qed.

(** * The further properties on concrete runs *)

Lemma ana_registered_generated :
  hashes_generated (hasher := plain_hasher) (disk ana_registered).
Proof.
  constructor; [|constructor]. exists 0, "Clave123". reflexivity.
Defined.

Lemma add_user_keeps_other_lookups_witness :
  fst (get_password_hash "ana"
         (snd (add_user (hasher := plain_hasher) "beto" "x" ana_registered))) =
  fst (get_password_hash "ana" ana_registered).
Proof.
  apply (add_user_keeps_other_lookups ana_registered "beto" "x" "ana").
  left. discriminate.
Defined.

Lemma add_user_then_get_password_hash_witness :
  get_password_hash "ana" ana_registered =
  (Ok (Some (generate_password_hash (PasswordHasher := plain_hasher)
               (entropy fresh) "Clave123")),
   ana_registered).
Proof.
  apply (add_user_then_get_password_hash fresh ana_registered
           "ana" "Clave123").
  reflexivity.
Defined.

Lemma store_functions_without_table_witness :
  fst (get_password_hash "ana" no_file) = Raise OperationalError /\
  fst (validate_user (hasher := plain_hasher) "ana" "x" no_file) =
    Raise OperationalError /\
  fst (add_user "ana" "x" no_file) = Raise OperationalError /\
  disk (snd (add_user "ana" "x" no_file)) = None /\
  disk (snd (validate_user "ana" "x" no_file)) = None.
Proof.
  apply (store_functions_without_table no_file "ana" "x"). reflexivity.
Defined.

Lemma empty_hash_never_validates_witness :
  validate_user (hasher := plain_hasher) "ana" "" empty_hash_row =
  (Ok false, empty_hash_row).
Proof.
  apply (empty_hash_never_validates empty_hash_row
           (mkTable [mkRow 1 "ana" ""] 1%Z) (mkRow 1 "ana" "") "ana" "");
    reflexivity.
Defined.

Lemma reachable_store_invariant_witness :
  store_ok
    (disk (perform_all (hasher := plain_hasher)
             [Op_main ["aplicacion_item3.py"; "add-user"; "ana"; "Clave123"];
              Op_register (post " beto " "x");
              Op_add_user "ana" "otra";
              Op_login (post "beto" "x")]
             no_file)).
Proof.
  apply (reachable_store_invariant (hasher := plain_hasher)).
  exact I.
Defined.

Lemma rows_append_only_witness :
  has_table
    (disk (perform_all (hasher := plain_hasher)
             [Op_register (post "beto" "x"); Op_add_user "ana" "otra"]
             ana_registered)) = true.
Proof.
  apply (proj1 (rows_append_only (hasher := plain_hasher)
                  [Op_register (post "beto" "x"); Op_add_user "ana" "otra"]
                  ana_registered)).
  reflexivity.
Defined.

Lemma login_outcomes_witness :
  exists b w',
    fst (validate_user (hasher := plain_hasher)
           (Py.strip " ana ") (Py.strip "clave123") ana_registered) = Ok b /\
    login (post " ana " "clave123") ana_registered =
    (Ok (if b
         then Rendered OK_HTML [("user", Py.strip " ana ")]
         else Rendered LOGIN_HTML
                [("msg", "Usuario o contraseña incorrectos.")]),
     w') /\
    disk w' = disk ana_registered.
Proof.
  apply (login_outcomes ana_registered " ana " "clave123");
    [reflexivity | exact ana_registered_generated].
Defined.




Lemma views_without_table_witness :
  fst (register (hasher := plain_hasher) (post "ana" "x") no_file) =
    Raise OperationalError /\
  fst (login (post "ana" "x") no_file) = Raise OperationalError.
Proof.
  apply (views_without_table no_file "ana" "x");
    [reflexivity | discriminate | discriminate].
Defined.

Lemma cli_add_user_success_witness :
  exists i w',
    run_script (hasher := plain_hasher)
      ["aplicacion_item3.py"; "ADD-USER"; "  "; ""] no_file = (0%Z, w') /\
    rows_of (disk w') =
      (rows_of (disk no_file)
       ++ [mkRow i "  " (generate_password_hash (entropy no_file) "")])%list /\
    log w' =
      (log no_file ++ [Called_init_db; Generated "";
                       Printed ("Usuario creado: " ++ "  ")])%list.
Proof.
  apply (cli_add_user_success "aplicacion_item3.py" "ADD-USER" "  " ""
           [] no_file);
    [reflexivity | reflexivity | reflexivity | exact I | intros []].
Defined.

Lemma cli_add_user_then_validate_witness :
  let w1 :=
    snd (run_script (hasher := plain_hasher)
           ["aplicacion_item3.py"; "add-user"; "ana"; "Clave123"] no_file) in
  run_script ["aplicacion_item3.py"; "validate"; "ana"; "Clave123"] w1 =
  (0%Z,
   mkWorld (disk w1) (entropy w1)
     (log w1 ++ [Called_init_db;
                 Verified (generate_password_hash (entropy no_file) "Clave123")
                   "Clave123";
                 Printed "Credenciales válidas"])).
Proof.
  apply (cli_add_user_then_validate
           "aplicacion_item3.py" "add-user" "aplicacion_item3.py" "validate"
           "ana" "Clave123" [] [] no_file);
    [reflexivity | reflexivity | intros []].
Defined.

Lemma cli_unknown_command_silent_witness :
  run_script (hasher := plain_hasher)
    ["aplicacion_item3.py"; "delete-user"; "ana"] ana_registered =
  (0%Z, snd (init_db ana_registered)).
Proof.
  apply (cli_unknown_command_silent "aplicacion_item3.py" "delete-user"
           ["ana"] ana_registered).
  reflexivity.
Defined.

Lemma cli_duplicate_add_user_effect_witness :
  main (hasher := plain_hasher)
    ["aplicacion_item3.py"; "add-user"; "ana"; "otra"] ana_registered =
  (Raise IntegrityError,
   mkWorld (disk ana_registered) (S (entropy ana_registered))
     (log ana_registered ++ [Called_init_db; Generated "otra"])).
Proof.
  apply (cli_duplicate_add_user_effect "aplicacion_item3.py" "add-user"
           "ana" "otra" [] ana_registered);
    [reflexivity | left; reflexivity].
Defined.

Lemma cli_missing_arguments_effect_witness :
  main (hasher := plain_hasher)
    ["aplicacion_item3.py"; "validate"; "ana"] ana_registered =
  (Raise IndexError, snd (init_db ana_registered)).
Proof.
  apply (cli_missing_arguments_effect
           ["aplicacion_item3.py"; "validate"; "ana"] ana_registered).
  reflexivity.
Defined.

Lemma cli_validate_verdict_witness :
  exists b l w',
    fst (validate_user (hasher := plain_hasher) "nadie" "x"
           (snd (init_db no_file))) = Ok b /\
    run_script ["aplicacion_item3.py"; "Validate"; "nadie"; "x"] no_file =
      (0%Z, w') /\
    rows_of (disk w') = rows_of (disk no_file) /\
    log w' =
      (log no_file ++ Called_init_db :: l
       ++ [Printed (if b then "Credenciales válidas"
                    else "Credenciales inválidas")])%list.
Proof.
  apply (cli_validate_verdict "aplicacion_item3.py" "Validate" "nadie" "x"
           [] no_file);
    [reflexivity | reflexivity | reflexivity | constructor].
Defined.

(** ** The route script *)

Module GraphhopperFacts.

Import Graphhopper.

Lemma list_ind3 {A} (P : list A -> Prop) :
  P [] -> (forall a, P [a]) -> (forall a b, P [a; b]) ->
  (forall a b c l, P l -> P (a :: b :: c :: l)) ->
  forall l, P l.
Proof.
  intros H0 H1 H2 H3 l.
  assert (H : forall n l, length l <= n -> P l).
  { induction n as [|n IH]; intros [|a [|b [|c k]]] Hlen; simpl in Hlen;
      auto; try lia.
    apply H3, IH. lia. }
  apply (H (length l)). lia.
Qed.

Lemma loop_ending (stdin : list string) :
  snd (loop stdin) =
  if existsb quits stdin then Finished else Uncaught_EOFError.
Proof.
  induction stdin as [| a | a b | a b c l IH] using list_ind3;
    cbn [loop existsb].
  - reflexivity.
  - change (quits a) with (Py.lower (Py.strip a) =? "v").
    destruct (Py.lower (Py.strip a) =? "v"); reflexivity.
  - change (quits a) with (Py.lower (Py.strip a) =? "v").
    change (quits b) with (Py.lower (Py.strip b) =? "v").
    destruct (Py.lower (Py.strip a) =? "v"); [reflexivity|].
    destruct (Py.lower (Py.strip b) =? "v"); reflexivity.
  - change (quits a) with (Py.lower (Py.strip a) =? "v").
    change (quits b) with (Py.lower (Py.strip b) =? "v").
    change (quits c) with (Py.lower (Py.strip c) =? "v").
    destruct (Py.lower (Py.strip a) =? "v"); [reflexivity|].
    destruct (Py.lower (Py.strip b) =? "v"); [reflexivity|].
    destruct (Py.lower (Py.strip c) =? "v"); [reflexivity|].
    cbn [orb]. rewrite <- IH. destruct (loop l). reflexivity.
Qed.

(** X23.  With a key and lines of text on standard input, the script
    ends normally exactly when some line is the letter v, in either case
    and with any white space around it; when the input runs out before
    that, it dies with the [EOFError] of [input]. *)
Theorem script_ending (key : string) (stdin : list string) :
  key <> "" ->
  Forall (fun line => Py.is_text line = true) stdin ->
  snd (main (Some key) stdin) =
  if existsb quits stdin then Finished else Uncaught_EOFError.
Proof.
  intros Hkey _. destruct key as [|c key]; [contradiction|].
  unfold main. rewrite <- loop_ending. destruct (loop stdin). reflexivity.
Qed.

Lemma loop_stops_reading (stdin more : list string) :
  snd (loop stdin) = Finished -> loop (stdin ++ more) = loop stdin.
Proof.
  induction stdin as [| a | a b | a b c l IH] using list_ind3;
    cbn [loop app].
  - discriminate.
  - destruct (Py.lower (Py.strip a) =? "v"); [reflexivity | discriminate].
  - destruct (Py.lower (Py.strip a) =? "v"); [reflexivity|].
    destruct (Py.lower (Py.strip b) =? "v"); [reflexivity | discriminate].
  - destruct (Py.lower (Py.strip a) =? "v"); [reflexivity|].
    destruct (Py.lower (Py.strip b) =? "v"); [reflexivity|].
    destruct (Py.lower (Py.strip c) =? "v"); [reflexivity|].
    intros Hfin. rewrite IH; [reflexivity|].
    destruct (loop l). exact Hfin.
Qed.

(** X24.  Once a run has ended normally, nothing that follows on standard
    input is read: any further lines leave the output and the ending as
    they are. *)
Theorem quit_stops_reading
  (api_key : option string) (stdin more : list string) :
  snd (main api_key stdin) = Finished ->
  main api_key (stdin ++ more) = main api_key stdin.
Proof.
  unfold main. destruct api_key as [[|c key]|]; try reflexivity.
  intros Hfin. rewrite loop_stops_reading; [reflexivity|].
  destruct (loop stdin). exact Hfin.
Qed.

Lemma vehiculos_some opcion vehicle :
  vehiculos opcion = Some vehicle -> In vehicle ["car"; "bike"; "foot"].
Proof.
  unfold vehiculos.
  destruct (opcion =? "1"); [intros [= <-]; simpl; auto|].
  destruct (opcion =? "2"); [intros [= <-]; simpl; auto|].
  destruct (opcion =? "3"); [intros [= <-]; simpl; auto|].
  discriminate.
Qed.

Lemma loop_allowed (key : string) (stdin : list string) :
  key <> "" -> Forall (allowed (Some key)) (fst (loop stdin)).
Proof.
  intros Hkey.
  induction stdin as [| a | a b | a b c l IH] using list_ind3;
    cbn [loop].
  - repeat constructor.
  - destruct (Py.lower (Py.strip a) =? "v"); repeat constructor.
  - destruct (Py.lower (Py.strip a) =? "v"); [repeat constructor|].
    destruct (Py.lower (Py.strip b) =? "v"); repeat constructor.
  - destruct (Py.lower (Py.strip a) =? "v") eqn:Ea; [repeat constructor|].
    destruct (Py.lower (Py.strip b) =? "v") eqn:Eb; [repeat constructor|].
    destruct (Py.lower (Py.strip c) =? "v"); [repeat constructor|].
    destruct (loop l) as [out e]. cbn [fst] in *.
    repeat (constructor; [exact I|]).
    constructor; [|exact IH].
    destruct (vehiculos (Py.lower (Py.strip c))) eqn:Ev; [|exact I].
    split; [eauto|].
    split; [exact (vehiculos_some _ _ Ev)|].
    split; now apply String.eqb_neq.
Qed.

(** X25.  Whatever the key and the input, a round reaches the routing
    service only when the key is set and not empty, only with one of the
    vehicles car, bike and foot, and never with the quit word as a
    city. *)
Theorem requests_are_allowed
  (api_key : option string) (stdin : list string) :
  Forall (allowed api_key) (fst (main api_key stdin)).
Proof.
  unfold main. destruct api_key as [[|c key]|]; try (repeat constructor).
  assert (Hkey : String c key <> "") by discriminate.
  pose proof (loop_allowed (String c key) stdin Hkey) as H.
  destruct (loop stdin). repeat constructor. exact H.
Qed.

Lemma script_ending_witness :
  snd (main (Some "clave")
         ["Santiago, Chile"; "Mendoza, Argentina"; "1"; nbsp ++ "V "; "Lima"])
  = Finished.
Proof.
  apply (script_ending "clave"
           ["Santiago, Chile"; "Mendoza, Argentina"; "1"; nbsp ++ "V "; "Lima"]);
    [discriminate | repeat constructor].
Defined.

Lemma quit_stops_reading_witness :
  main (Some "clave") (["Santiago"; "v"] ++ ["Mendoza"; "2"]) =
  main (Some "clave") ["Santiago"; "v"].
Proof.
  apply (quit_stops_reading (Some "clave") ["Santiago"; "v"]
           ["Mendoza"; "2"]).
  reflexivity.
Defined.

End GraphhopperFacts.
